(** * Template resolution over the templates collection

    A shallow embedding of [backend/app/template_models.py],
    [backend/app/mongodb.py] and [backend/app/template_routes.py]:
    the pydantic models as records, the Motor collection as an ordered list
    of documents with an optional unique compound index, and the four route
    handlers as computations in a small state-and-exception monad over a
    world made of the collection, the wall clock and the network.

    [backend/app/release_routes.py] (with [release_models.py]) is embedded
    the same way over the releases collection, and the two seeding scripts,
    [scripts/seed_templates.py] and [scripts/seed_release.py], as
    computations over the collections the handlers read.  The text
    functions of Python the code relies on ([lower], [strip], [split],
    [int]) are modelled on ASCII.

    Strings are byte strings (UTF-8); [String.leb] on them is the code-point
    order Python uses to compare [str] values.  Timestamps are integers
    (microseconds since the epoch).  Logging has no effect on the results
    and is left out. *)

From Stdlib Require Import List String Ascii ZArith NArith Bool Lia.
From Stdlib Require Import Sorted Permutation DecimalString.
From Stdlib Require OrderedTypeEx.
Import ListNotations.

Local Open Scope string_scope.
Local Open Scope list_scope.
Local Open Scope Z_scope.

(* ================================================================== *)
(** ** Python strings *)

Module PyStr.

(** [needle in hay] *)
Fixpoint contains (needle hay : string) : bool :=
  if String.prefix needle hay then true
  else match hay with
       | EmptyString => false
       | String _ hay' => contains needle hay'
       end.

Definition lower_ascii (c : ascii) : ascii :=
  let n := nat_of_ascii c in
  if ((65 <=? n) && (n <=? 90))%nat then ascii_of_nat (n + 32) else c.

(** [s.lower()], on the ASCII letters; other bytes are kept. *)
Fixpoint lower (s : string) : string :=
  match s with
  | EmptyString => EmptyString
  | String c s' => String (lower_ascii c) (lower s')
  end.

(** [str(n)] for an [int] *)
Definition of_int (n : Z) : string := NilZero.string_of_int (Z.to_int n).

End PyStr.

(* ================================================================== *)
(** ** template_models.py *)

Definition datetime := Z.

Record TemplateSectionModel := {
  title : string;
  instruction : string;
  format : string;
  item_format : option string;
  example_item_format : option string
}.

Record TemplateModel := {
  template_id : string;
  client_id : string;
  name : string;
  description : string;
  sections : list TemplateSectionModel;
  global_instruction : option string;
  clinical_safety_rules : option (list string);
  version : Z;
  is_active : bool;
  created_at : datetime;
  updated_at : datetime
}.

Record TemplateSyncResponse := {
  templates : list TemplateModel;
  sync_timestamp : datetime
}.

(** [doc["created_at"] = v] and [doc["updated_at"] = v] on a dumped model. *)
Definition set_created_at (v : datetime) (t : TemplateModel) : TemplateModel :=
  {| template_id := template_id t; client_id := client_id t; name := name t;
     description := description t; sections := sections t;
     global_instruction := global_instruction t;
     clinical_safety_rules := clinical_safety_rules t;
     version := version t; is_active := is_active t;
     created_at := v; updated_at := updated_at t |}.

Definition set_updated_at (v : datetime) (t : TemplateModel) : TemplateModel :=
  {| template_id := template_id t; client_id := client_id t; name := name t;
     description := description t; sections := sections t;
     global_instruction := global_instruction t;
     clinical_safety_rules := clinical_safety_rules t;
     version := version t; is_active := is_active t;
     created_at := created_at t; updated_at := v |}.

(** [template.model_dump()]: the dictionary of the model's own fields. *)
Definition model_dump (t : TemplateModel) : TemplateModel := t.

(* ================================================================== *)
(** ** The collection *)

Definition ObjectId := N.

(** A stored document: the template's fields and the store-assigned [_id]. *)
Record Document := {
  _id : ObjectId;
  fields : TemplateModel
}.

(** The templates collection: its documents in natural order, and whether
    the unique index on [(template_id, client_id)] has been built. *)
Record Collection := {
  docs : list Document;
  unique_index : bool
}.

Definition key (t : TemplateModel) : string * string :=
  (template_id t, client_id t).

Definition key_eqb (k1 k2 : string * string) : bool :=
  String.eqb (fst k1) (fst k2) && String.eqb (snd k1) (snd k2).

Definition doc_key (d : Document) : string * string := key (fields d).

(** A query document: each field is either constrained to a value or free. *)
Record Query := {
  q_template_id : option string;
  q_client_id : option string;
  q_is_active : option bool
}.

Definition opt_matches {A} (eqb : A -> A -> bool) (c : option A) (v : A) : bool :=
  match c with
  | None => true
  | Some x => eqb x v
  end.

Definition matches (q : Query) (d : Document) : bool :=
  opt_matches String.eqb (q_template_id q) (template_id (fields d))
  && opt_matches String.eqb (q_client_id q) (client_id (fields d))
  && opt_matches Bool.eqb (q_is_active q) (is_active (fields d)).

Definition has_key (k : string * string) (ds : list Document) : bool :=
  existsb (fun d => key_eqb (doc_key d) k) ds.

(** An [_id] no document of the collection carries. *)
Definition fresh_id (ds : list Document) : ObjectId :=
  N.succ (fold_right N.max 0%N (map _id ds)).

(** The documents before the first match of [q], that match, and the
    documents after it; [None] when nothing matches. *)
Fixpoint split_first (q : Query) (ds : list Document)
    : option (list Document * Document * list Document) :=
  match ds with
  | [] => None
  | d :: ds' =>
      if matches q d then Some ([], d, ds')
      else match split_first q ds' with
           | Some (before, m, after) => Some (d :: before, m, after)
           | None => None
           end
  end.

(** Does a key occur on two documents? *)
Fixpoint dup_keys (ds : list Document) : bool :=
  match ds with
  | [] => false
  | d :: ds' => has_key (doc_key d) ds' || dup_keys ds'
  end.

(* ================================================================== *)
(** ** The world and the handler monad *)

Inductive exn :=
| HTTPException (status_code : Z) (detail : string)
| PyMongoError (message : string).

(** [str(e)] *)
Definition str (e : exn) : string :=
  match e with
  | HTTPException status_code detail =>
      PyStr.of_int status_code ++ ": " ++ detail
  | PyMongoError message => message
  end.

(** The world a handler runs in: the collection, the outcome of the coming
    round trips to the server ([Some msg]: the round trip fails with that
    message; past the end of the list every round trip goes through), and
    the readings the wall clock gives to the successive calls of
    [datetime.utcnow()]. *)
Record World := {
  coll : Collection;
  net : list (option string);
  clock : nat -> datetime;
  tick : nat
}.

Definition M (A : Type) := World -> (exn + A) * World.

Definition ret {A} (a : A) : M A := fun w => (inr a, w).

Definition raise {A} (e : exn) : M A := fun w => (inl e, w).

Definition bind {A B} (m : M A) (k : A -> M B) : M B :=
  fun w => match m w with
           | (inl e, w') => (inl e, w')
           | (inr a, w') => k a w'
           end.

(** [try: body except Exception as e: handler(e)] *)
Definition try_except {A} (body : M A) (handler : exn -> M A) : M A :=
  fun w => match body w with
           | (inl e, w') => handler e w'
           | (inr a, w') => (inr a, w')
           end.

Notation "x <- m ;; k" := (bind m (fun x => k))
  (at level 61, m at next level, right associativity).
Notation "m ;;; k" := (bind m (fun _ => k))
  (at level 61, right associativity).

Definition set_coll (c : Collection) (w : World) : World :=
  {| coll := c; net := net w; clock := clock w; tick := tick w |}.

(** [datetime.utcnow()] *)
Definition utcnow : M datetime :=
  fun w => (inr (clock w (tick w)),
            {| coll := coll w; net := net w; clock := clock w;
               tick := S (tick w) |}).

(** One round trip to the server. *)
Definition round_trip : M unit :=
  fun w => match net w with
           | [] => (inr tt, w)
           | None :: rest =>
               (inr tt, {| coll := coll w; net := rest; clock := clock w;
                           tick := tick w |})
           | Some msg :: rest =>
               (inl (PyMongoError msg),
                {| coll := coll w; net := rest; clock := clock w;
                   tick := tick w |})
           end.

Definition get_coll : M Collection := fun w => (inr (coll w), w).

Definition put_coll (c : Collection) : M unit :=
  fun w => (inr tt, set_coll c w).

(** The message of the server's duplicate-key error (E11000), up to the
    offending key it goes on to quote. *)
Definition duplicate_key_message : string :=
  "E11000 duplicate key error collection: iqcapture.templates index: template_id_1_client_id_1".

Definition DuplicateKeyError : exn := PyMongoError duplicate_key_message.

(* ------------------------------------------------------------------ *)
(** *** Collection operations (Motor) *)

(** [collection.find(q)], all of the cursor. *)
Definition find (q : Query) : M (list Document) :=
  round_trip ;;;
  c <- get_coll ;;
  ret (filter (matches q) (docs c)).

(** [collection.find_one(q)] *)
Definition find_one (q : Query) : M (option Document) :=
  round_trip ;;;
  c <- get_coll ;;
  ret (List.find (matches q) (docs c)).

(** [collection.create_index([("template_id", 1), ("client_id", 1)],
    unique=True)]: nothing to do when the index exists; building it fails
    when two documents share a key. *)
Definition create_unique_index : M unit :=
  round_trip ;;;
  c <- get_coll ;;
  if unique_index c then ret tt
  else if dup_keys (docs c) then raise DuplicateKeyError
  else put_coll {| docs := docs c; unique_index := true |}.

(** [collection.create_index(field)] for a plain index: no observable
    effect on the documents. *)
Definition create_index (field : string) : M unit := round_trip.

(** [collection.insert_one(doc)] *)
Definition insert_one (doc : TemplateModel) : M ObjectId :=
  round_trip ;;;
  c <- get_coll ;;
  if unique_index c && has_key (key doc) (docs c) then raise DuplicateKeyError
  else
    let oid := fresh_id (docs c) in
    put_coll {| docs := docs c ++ [ {| _id := oid; fields := doc |} ];
                unique_index := unique_index c |} ;;;
    ret oid.

(** [{"$set": update_data}] where [update_data] has every field of the model
    but [created_at]. *)
Definition dollar_set (update_data : TemplateModel) (d : Document) : Document :=
  {| _id := _id d;
     fields := set_created_at (created_at (fields d)) update_data |}.

(** [collection.find_one_and_update(q, {"$set": update_data},
    return_document=True)]: the document after the update, or [None] when
    nothing matches.  With the unique index in place the write is refused
    when another document already has the key the update gives. *)
Definition find_one_and_update (q : Query) (update_data : TemplateModel)
    : M (option Document) :=
  round_trip ;;;
  c <- get_coll ;;
  match split_first q (docs c) with
  | None => ret None
  | Some (before, d, after) =>
      let r := dollar_set update_data d in
      if unique_index c && has_key (doc_key r) (before ++ after)
      then raise DuplicateKeyError
      else
        put_coll {| docs := before ++ r :: after;
                    unique_index := unique_index c |} ;;;
        ret (Some r)
  end.

(* ================================================================== *)
(** ** Python dictionaries keyed by strings

    Insertion-ordered: assigning to a key that is present keeps its place,
    a new key goes last. *)

Module PyDict.

Definition t (V : Type) := list (string * V).

Fixpoint get {V} (k : string) (d : t V) : option V :=
  match d with
  | [] => None
  | (k', v) :: d' => if String.eqb k' k then Some v else get k d'
  end.

(** [d[k] = v] *)
Fixpoint set {V} (k : string) (v : V) (d : t V) : t V :=
  match d with
  | [] => [(k, v)]
  | (k', v') :: d' =>
      if String.eqb k' k then (k, v) :: d' else (k', v') :: set k v d'
  end.

Definition keys {V} (d : t V) : list string := map fst d.

(** [d.values()] *)
Definition values {V} (d : t V) : list V := map snd d.

End PyDict.

(* ================================================================== *)
(** ** template_routes.py *)

Definition default : string := "default".

Definition _ensure_indexes : M unit :=
  create_unique_index ;;;
  create_index "client_id" ;;;
  create_index "updated_at".

(** Drops [_id] and builds the model from the remaining fields. *)
Definition _doc_to_model (doc : Document) : TemplateModel := fields doc.

(** [list.sort(key=lambda t: t.name)]: a stable sort; insertion into the
    sorted tail, ahead of the entries whose name is not smaller. *)
Fixpoint insert_by_name (x : TemplateModel) (l : list TemplateModel)
    : list TemplateModel :=
  match l with
  | [] => [x]
  | y :: l' =>
      if String.leb (name x) (name y) then x :: y :: l'
      else y :: insert_by_name x l'
  end.

Fixpoint sort_by_name (l : list TemplateModel) : list TemplateModel :=
  match l with
  | [] => []
  | x :: l' => insert_by_name x (sort_by_name l')
  end.

Definition unavailable {A} (e : exn) : M A :=
  raise (HTTPException 503 ("Template service unavailable: " ++ str e)).

(** [{doc["template_id"]: doc async for doc in cursor}], and the loop
    [defaults[doc["template_id"]] = doc] over a cursor. *)
Definition merge_docs (cursor : list Document) (d : PyDict.t Document)
    : PyDict.t Document :=
  fold_left (fun acc doc => PyDict.set (template_id (fields doc)) doc acc)
            cursor d.

Definition list_templates (client_id : string) : M TemplateSyncResponse :=
  try_except
    (default_cursor <- find {| q_template_id := None;
                               q_client_id := Some default;
                               q_is_active := Some true |} ;;
     let defaults := merge_docs default_cursor [] in
     defaults <-
       (if negb (String.eqb client_id default) then
          client_cursor <- find {| q_template_id := None;
                                   q_client_id := Some client_id;
                                   q_is_active := Some true |} ;;
          ret (merge_docs client_cursor defaults)
        else ret defaults) ;;
     let templates := map _doc_to_model (PyDict.values defaults) in
     let templates := sort_by_name templates in
     now <- utcnow ;;
     ret {| templates := templates; sync_timestamp := now |})
    (fun e => unavailable e).

Definition not_found_detail (template_id : string) : string :=
  "Template '" ++ template_id ++ "' not found".

Definition get_template (template_id client_id : string) : M TemplateModel :=
  try_except
    (found <-
       (if negb (String.eqb client_id default) then
          find_one {| q_template_id := Some template_id;
                      q_client_id := Some client_id;
                      q_is_active := Some true |}
        else ret None) ;;
     match found with
     | Some doc => ret (_doc_to_model doc)
     | None =>
         doc <- find_one {| q_template_id := Some template_id;
                            q_client_id := Some default;
                            q_is_active := Some true |} ;;
         match doc with
         | Some doc => ret (_doc_to_model doc)
         | None => raise (HTTPException 404 (not_found_detail template_id))
         end
     end)
    (fun e => match e with
              | HTTPException _ _ => raise e
              | _ => unavailable e
              end).

Definition conflict_detail (template : TemplateModel) : string :=
  "Template '" ++ template_id template ++ "' already exists for client '"
  ++ client_id template ++ "'".

(** The [except Exception as e] clause of [create_template]. *)
Definition create_template_except {A} (template : TemplateModel) (e : exn)
    : M A :=
  if PyStr.contains "duplicate key" (PyStr.lower (str e))
  then raise (HTTPException 409 (conflict_detail template))
  else unavailable e.

(** The [try] block of [create_template]. *)
Definition create_template_try (template : TemplateModel) : M TemplateModel :=
  _ensure_indexes ;;;
  let doc := model_dump template in
  now <- utcnow ;;
  let doc := set_created_at now doc in
  now <- utcnow ;;
  let doc := set_updated_at now doc in
  insert_one doc ;;;
  ret template.

Definition create_template (template : TemplateModel) : M TemplateModel :=
  try_except (create_template_try template) (create_template_except template).

Definition not_found_for_client_detail (template_id client_id : string)
    : string :=
  "Template '" ++ template_id ++ "' not found for client '" ++ client_id ++ "'".

Definition update_template (template_id : string) (template : TemplateModel)
    : M TemplateModel :=
  try_except
    (let update_data := model_dump template in
     now <- utcnow ;;
     let update_data := set_updated_at now update_data in
     (* update_data.pop("created_at", None): see [dollar_set] *)
     result <- find_one_and_update
                 {| q_template_id := Some template_id;
                    q_client_id := Some (client_id template);
                    q_is_active := None |}
                 update_data ;;
     match result with
     | None =>
         raise (HTTPException 404
                  (not_found_for_client_detail template_id (client_id template)))
     | Some result => ret (_doc_to_model result)
     end)
    (fun e => match e with
              | HTTPException _ _ => raise e
              | _ => unavailable e
              end).

(** A world whose server answers every round trip. *)
Definition reliable (c : Collection) (clk : nat -> datetime) (n : nat) : World :=
  {| coll := c; net := []; clock := clk; tick := n |}.

(* ================================================================== *)
(** ** Vocabulary of the statements *)

Definition active_query (tid cid : string) : Query :=
  {| q_template_id := Some tid; q_client_id := Some cid;
     q_is_active := Some true |}.

Definition client_query (cid : string) : Query :=
  {| q_template_id := None; q_client_id := Some cid;
     q_is_active := Some true |}.

(** Every entry of the dictionary sits under its own [template_id]. *)
Definition keyed (d : PyDict.t Document) : Prop :=
  forall k v, In (k, v) d -> k = template_id (fields v).

Definition has_tid (k : string) (doc : Document) : bool :=
  String.eqb (template_id (fields doc)) k.

Definition name_le (a b : TemplateModel) : Prop :=
  String.leb (name a) (name b) = true.

(** The dictionary [list_templates] holds before it collapses it. *)
Definition resolved (cid : string) (c : Collection) : PyDict.t Document :=
  let defaults :=
    merge_docs (filter (matches (client_query default)) (docs c)) [] in
  if negb (String.eqb cid default)
  then merge_docs (filter (matches (client_query cid)) (docs c)) defaults
  else defaults.

(** What a client sees of the collection: its own active documents, and the
    active defaults it has no active document for. *)
Definition visible (c : Collection) (cid : string) (d : Document) : Prop :=
  In d (docs c) /\ is_active (fields d) = true /\
  (client_id (fields d) = cid
   \/ (client_id (fields d) = default
       /\ forall d', In d' (docs c) ->
            template_id (fields d') = template_id (fields d) ->
            client_id (fields d') = cid -> is_active (fields d') = false)).

(** The document [create_template] hands to [insert_one]. *)
Definition stamped (t : TemplateModel) (clk : nat -> datetime) (n : nat)
    : TemplateModel :=
  set_updated_at (clk (S n)) (set_created_at (clk n) (model_dump t)).

Definition indexed (ds : list Document) : Collection :=
  {| docs := ds; unique_index := true |}.


Definition update_query (tid cid : string) : Query :=
  {| q_template_id := Some tid; q_client_id := Some cid; q_is_active := None |}.


(** [list_templates] with the test [client_id != "default"] taken away: the
    three steps of its docstring, the merge step performed for every
    client. *)
Definition list_templates_unguarded (client_id : string)
    : M TemplateSyncResponse :=
  try_except
    (default_cursor <- find {| q_template_id := None;
                               q_client_id := Some default;
                               q_is_active := Some true |} ;;
     let defaults := merge_docs default_cursor [] in
     client_cursor <- find {| q_template_id := None;
                              q_client_id := Some client_id;
                              q_is_active := Some true |} ;;
     let defaults := merge_docs client_cursor defaults in
     let templates := map _doc_to_model (PyDict.values defaults) in
     let templates := sort_by_name templates in
     now <- utcnow ;;
     ret {| templates := templates; sync_timestamp := now |})
    (fun e => unavailable e).

(** The defaults-only computation: the active default-layer templates,
    sorted by name. *)
Definition defaults_only (c : Collection) : list TemplateModel :=
  sort_by_name
    (map _doc_to_model (filter (matches (client_query default)) (docs c))).

Definition entry (doc : Document) : string * Document :=
  (template_id (fields doc), doc).

(* ================================================================== *)
(** * A clinic's collection *)

Module Samples.

Definition subjective : TemplateSectionModel :=
  {| title := "Subjective"; instruction := "What the patient reports";
     format := "paragraph"; item_format := None;
     example_item_format := None |}.

Definition plan : TemplateSectionModel :=
  {| title := "Plan"; instruction := "Agreed next steps";
     format := "list"; item_format := Some "- {item}";
     example_item_format := None |}.

(** The default template [A1], as a request carries it. *)
Definition soap : TemplateModel :=
  {| template_id := "A1"; client_id := "default"; name := "SOAP";
     description := "Subjective, objective, assessment, plan";
     sections := [subjective; plan];
     global_instruction := None; clinical_safety_rules := None;
     version := 1; is_active := true;
     created_at := 5; updated_at := 5 |}.

(** The override of [A1] for clinic 7. *)
Definition soap_clinic (active : bool) : TemplateModel :=
  {| template_id := "A1"; client_id := "clinic-7"; name := "Clinic SOAP";
     description := "SOAP note, clinic wording";
     sections := [subjective];
     global_instruction := Some "Use plain language";
     clinical_safety_rules := Some ["Never invent a dosage"];
     version := 2; is_active := active;
     created_at := 20; updated_at := 30 |}.

Definition handover : TemplateModel :=
  {| template_id := "B2"; client_id := "default"; name := "Handover";
     description := "Shift handover";
     sections := [plan];
     global_instruction := None; clinical_safety_rules := None;
     version := 1; is_active := true;
     created_at := 7; updated_at := 7 |}.

(** Another request for the pair of [soap]. *)
Definition handover_as_soap : TemplateModel :=
  {| template_id := "A1"; client_id := "default"; name := "Handover";
     description := "Shift handover";
     sections := [plan];
     global_instruction := None; clinical_safety_rules := None;
     version := 1; is_active := true;
     created_at := 7; updated_at := 7 |}.


(** [soap] under another template id. *)
Definition soap_as_a9 : TemplateModel :=
  {| template_id := "A9"; client_id := "default"; name := "SOAP";
     description := "Subjective, objective, assessment, plan";
     sections := [subjective; plan];
     global_instruction := None; clinical_safety_rules := None;
     version := 1; is_active := true;
     created_at := 5; updated_at := 5 |}.

Definition retired : TemplateModel :=
  {| template_id := "C3"; client_id := "default"; name := "Audit";
     description := "Withdrawn";
     sections := [];
     global_instruction := None; clinical_safety_rules := None;
     version := 1; is_active := false;
     created_at := 8; updated_at := 9 |}.

Definition store (override_active : bool) : Collection :=
  {| docs := [ {| _id := 1%N; fields := soap |};
               {| _id := 2%N; fields := soap_clinic override_active |};
               {| _id := 3%N; fields := handover |};
               {| _id := 4%N; fields := retired |} ];
     unique_index := true |}.

Definition empty : Collection := {| docs := []; unique_index := false |}.

(** A clock that advances by one microsecond per reading, and one that
    gives the same reading every time. *)
Definition ticking : nat -> datetime := fun n => 1000 + Z.of_nat n.

End Samples.

(* ================================================================== *)
(** ** mongodb.py and the health route *)

(** [check_mongo_connection()]: a ping; every failure is turned into
    [False]. *)
Definition check_mongo_connection : M bool :=
  try_except (round_trip ;;; ret true) (fun _ => ret false).

(** The body of the answer of [templates_health], [{"status": "ok"}]. *)
Definition health_ok : list (string * string) := [("status", "ok")].

Definition templates_health : M (list (string * string)) :=
  connected <- check_mongo_connection ;;
  if negb connected
  then raise (HTTPException 503 "MongoDB is not reachable")
  else ret health_ok.

(* ================================================================== *)
(** ** Assertions on the collection *)

(** Started from a collection satisfying [I], the computation ends, by a
    result or an exception [r], in a collection [c] with [Q r c]; whatever
    the network and the clock do. *)
Definition ctriple {A} (I : Collection -> Prop) (m : M A)
    (Q : exn + A -> Collection -> Prop) : Prop :=
  forall w, I (coll w) -> Q (fst (m w)) (coll (snd (m w))).

(** The state of a collection that has only been written through the
    handlers: no key on two documents, and the unique index in place as
    soon as a document is stored. *)
Definition uniquely_keyed (c : Collection) : Prop :=
  NoDup (map doc_key (docs c)) /\ (unique_index c = true \/ docs c = []).

(** Uniquely keyed, with the unique index in place. *)
Definition indexed_keys (c : Collection) : Prop :=
  uniquely_keyed c /\ unique_index c = true.

(** The errors a resolution handler lets out. *)
Definition unavailable_error (e : exn) : Prop :=
  exists msg, e = HTTPException 503 ("Template service unavailable: " ++ msg).

(** A stored active document with this template id, of this client or of
    the default layer, carries the record. *)
Definition resolves_from (c : Collection) (tid cid : string)
    (t : TemplateModel) : Prop :=
  exists d, In d (docs c) /\ t = _doc_to_model d
            /\ template_id t = tid /\ is_active t = true
            /\ (client_id t = cid \/ client_id t = default).

(* ================================================================== *)
(** ** Python text to numbers *)

Module PyParse.

(** [c.isspace()] for an ASCII character. *)
Definition isspace (c : ascii) : bool :=
  let n := nat_of_ascii c in
  (((9 <=? n) && (n <=? 13)) || ((28 <=? n) && (n <=? 32)))%nat.

Fixpoint lstrip (s : string) : string :=
  match s with
  | EmptyString => EmptyString
  | String c s' => if isspace c then lstrip s' else s
  end.

Fixpoint rstrip (s : string) : string :=
  match s with
  | EmptyString => EmptyString
  | String c s' =>
      match rstrip s' with
      | EmptyString => if isspace c then EmptyString else String c EmptyString
      | r => String c r
      end
  end.

(** [s.strip()] *)
Definition strip (s : string) : string := rstrip (lstrip s).

(** [s.split(sep)] for a one-character separator: never an empty list. *)
Fixpoint split (sep : ascii) (s : string) : list string :=
  match s with
  | EmptyString => [EmptyString]
  | String c s' =>
      if Ascii.eqb c sep then EmptyString :: split sep s'
      else match split sep s' with
           | piece :: pieces => String c piece :: pieces
           | [] => [String c EmptyString]
           end
  end.

Definition digit (c : ascii) : option Z :=
  let n := nat_of_ascii c in
  if ((48 <=? n) && (n <=? 57))%nat then Some (Z.of_nat (n - 48)) else None.

(** The digits of a decimal literal, single underscores allowed between
    two digits: the value read so far and the number of digits. *)
Fixpoint digits (acc : Z) (count : nat) (after_digit : bool) (s : string)
    : option (Z * nat) :=
  match s with
  | EmptyString => if after_digit then Some (acc, count) else None
  | String c s' =>
      if Ascii.eqb c "_"
      then if after_digit then digits acc count false s' else None
      else match digit c with
           | Some d => digits (10 * acc + d) (S count) true s'
           | None => None
           end
  end.

(** The default of [sys.int_max_str_digits]. *)
Definition int_max_str_digits : nat := 4300.

(** [int(x)] for a string of ASCII characters, [None] for [ValueError]:
    surrounding whitespace, an optional sign, decimal digits. *)
Definition int (x : string) : option Z :=
  let x := strip x in
  let signed :=
    match x with
    | String "+" rest => (1, rest)
    | String "-" rest => (-1, rest)
    | _ => (1, x)
    end in
  match digits 0 0 false (snd signed) with
  | Some (n, count) =>
      if (int_max_str_digits <? count)%nat then None
      else Some (fst signed * n)
  | None => None
  end.

(** [tuple(f(x) for x in l)] where [f] may raise. *)
Fixpoint tuple_of {A B} (f : A -> option B) (l : list A) : option (list B) :=
  match l with
  | [] => Some []
  | x :: l' =>
      match f x with
      | None => None
      | Some y =>
          match tuple_of f l' with
          | None => None
          | Some ys => Some (y :: ys)
          end
      end
  end.

(** [a > b] on tuples of integers: decided at the first place where they
    differ; a proper extension is greater. *)
Fixpoint tuple_gt (a b : list Z) : bool :=
  match a, b with
  | [], _ => false
  | _ :: _, [] => true
  | x :: a', y :: b' => if x =? y then tuple_gt a' b' else y <? x
  end.

End PyParse.

(* ================================================================== *)
(** ** release_models.py and release_routes.py *)

Module Releases.

Record ReleaseModel := {
  version : string;
  release_date : datetime;
  download_url : option string;
  release_notes : option string;
  whats_new : option (list string);
  is_latest : bool;
  min_version : option string;
  platform : string;
  created_at : datetime
}.

(** [LatestReleaseResponse]; its fields [version], [release_date], ... carry
    the prefix [latest_] here. *)
Record LatestReleaseResponse := {
  available : bool;
  latest_version : string;
  latest_release_date : option datetime;
  latest_download_url : option string;
  latest_release_notes : option string;
  latest_whats_new : option (list string)
}.

Definition set_is_latest (v : bool) (r : ReleaseModel) : ReleaseModel :=
  {| version := version r; release_date := release_date r;
     download_url := download_url r; release_notes := release_notes r;
     whats_new := whats_new r; is_latest := v;
     min_version := min_version r; platform := platform r;
     created_at := created_at r |}.

Definition set_created_at (v : datetime) (r : ReleaseModel) : ReleaseModel :=
  {| version := version r; release_date := release_date r;
     download_url := download_url r; release_notes := release_notes r;
     whats_new := whats_new r; is_latest := is_latest r;
     min_version := min_version r; platform := platform r;
     created_at := v |}.

Record Document := {
  _id : ObjectId;
  fields : ReleaseModel
}.

(** The releases collection: its documents in natural order, and whether
    the unique index on [version] has been built. *)
Record Collection := {
  docs : list Document;
  unique_version : bool
}.

Record World := {
  coll : Collection;
  net : list (option string);
  clock : nat -> datetime;
  tick : nat
}.

Definition M (A : Type) := World -> (exn + A) * World.

Definition ret {A} (a : A) : M A := fun w => (inr a, w).

Definition raise {A} (e : exn) : M A := fun w => (inl e, w).

Definition bind {A B} (m : M A) (k : A -> M B) : M B :=
  fun w => match m w with
           | (inl e, w') => (inl e, w')
           | (inr a, w') => k a w'
           end.

Definition try_except {A} (body : M A) (handler : exn -> M A) : M A :=
  fun w => match body w with
           | (inl e, w') => handler e w'
           | (inr a, w') => (inr a, w')
           end.

Definition utcnow : M datetime :=
  fun w => (inr (clock w (tick w)),
            {| coll := coll w; net := net w; clock := clock w;
               tick := S (tick w) |}).

Definition round_trip : M unit :=
  fun w => match net w with
           | [] => (inr tt, w)
           | None :: rest =>
               (inr tt, {| coll := coll w; net := rest; clock := clock w;
                           tick := tick w |})
           | Some msg :: rest =>
               (inl (PyMongoError msg),
                {| coll := coll w; net := rest; clock := clock w;
                   tick := tick w |})
           end.

Definition get_coll : M Collection := fun w => (inr (coll w), w).

Definition put_coll (c : Collection) : M unit :=
  fun w => (inr tt, {| coll := c; net := net w; clock := clock w;
                       tick := tick w |}).

Definition duplicate_key_message : string :=
  "E11000 duplicate key error collection: iqcapture.releases index: version_1".

Definition DuplicateKeyError : exn := PyMongoError duplicate_key_message.

Definition has_version (v : string) (ds : list Document) : bool :=
  existsb (fun d => String.eqb (version (fields d)) v) ds.

Fixpoint dup_versions (ds : list Document) : bool :=
  match ds with
  | [] => false
  | d :: ds' => has_version (version (fields d)) ds' || dup_versions ds'
  end.

(** A document of the greatest [release_date]; among several, the store
    chooses (here: the first in natural order). *)
Fixpoint newest (ds : list Document) : option Document :=
  match ds with
  | [] => None
  | d :: ds' =>
      match newest ds' with
      | None => Some d
      | Some m =>
          if release_date (fields m) <=? release_date (fields d)
          then Some d else Some m
      end
  end.

Definition marked_latest (d : Document) : bool := is_latest (fields d).

(** [collection.find_one({"is_latest": True},
    sort=[("release_date", -1)])] *)
Definition find_one_latest : M (option Document) :=
  bind round_trip (fun _ =>
  bind get_coll (fun c =>
  ret (newest (filter marked_latest (docs c))))).

Definition unmark (d : Document) : Document :=
  if is_latest (fields d)
  then {| _id := _id d; fields := set_is_latest false (fields d) |}
  else d.

(** [collection.update_many({"is_latest": True},
    {"$set": {"is_latest": False}})] *)
Definition update_many_unmark : M unit :=
  bind round_trip (fun _ =>
  bind get_coll (fun c =>
  put_coll {| docs := map unmark (docs c);
              unique_version := unique_version c |})).

(** [collection.create_index("version", unique=True)] *)
Definition create_unique_index : M unit :=
  bind round_trip (fun _ =>
  bind get_coll (fun c =>
  if unique_version c then ret tt
  else if dup_versions (docs c) then raise DuplicateKeyError
  else put_coll {| docs := docs c; unique_version := true |})).

(** [collection.create_index("is_latest")] *)
Definition create_index (field : string) : M unit := round_trip.

Definition fresh_id (ds : list Document) : ObjectId :=
  N.succ (fold_right N.max 0%N (map _id ds)).

(** [collection.insert_one(doc)] *)
Definition insert_one (doc : ReleaseModel) : M ObjectId :=
  bind round_trip (fun _ =>
  bind get_coll (fun c =>
  if unique_version c && has_version (version doc) (docs c)
  then raise DuplicateKeyError
  else
    let oid := fresh_id (docs c) in
    bind (put_coll {| docs := docs c ++ [ {| _id := oid; fields := doc |} ];
                      unique_version := unique_version c |})
         (fun _ => ret oid))).

Definition _ensure_indexes : M unit :=
  bind create_unique_index (fun _ => create_index "is_latest").

Definition _doc_to_model (doc : Document) : ReleaseModel := fields doc.

(** [parse] of [_is_newer]; [None] when an [int(x)] raises. *)
Definition parse (v : string) : option (list Z) :=
  PyParse.tuple_of PyParse.int (PyParse.split "." (PyParse.strip v)).

(** Both versions are parsed, the latest first; a [ValueError] from either
    leads to the comparison of the strings. *)
Definition _is_newer (latest current : string) : bool :=
  match parse latest with
  | None => negb (String.eqb latest current)
  | Some l =>
      match parse current with
      | None => negb (String.eqb latest current)
      | Some c => PyParse.tuple_gt l c
      end
  end.

(** Truth value of an optional string: [None] and [""] are false. *)
Definition truthy (s : option string) : bool :=
  match s with
  | None => false
  | Some EmptyString => false
  | Some _ => true
  end.

(** [current_version or "unknown"] *)
Definition or_unknown (s : option string) : string :=
  match s with
  | Some (String c s') => String c s'
  | _ => "unknown"
  end.

Definition release_unavailable {A} (e : exn) : M A :=
  raise (HTTPException 503 ("Release service unavailable: " ++ str e)).

Definition get_latest_release (current_version : option string)
    : M LatestReleaseResponse :=
  try_except
    (bind find_one_latest (fun doc =>
     match doc with
     | None =>
         ret {| available := false;
                latest_version := or_unknown current_version;
                latest_release_date := None; latest_download_url := None;
                latest_release_notes := None; latest_whats_new := None |}
     | Some doc =>
         let release := _doc_to_model doc in
         let update_available :=
           match current_version with
           | Some cv =>
               if truthy current_version
               then _is_newer (version release) cv else false
           | None => false
           end in
         ret {| available := update_available;
                latest_version := version release;
                latest_release_date := Some (release_date release);
                latest_download_url := download_url release;
                latest_release_notes := release_notes release;
                latest_whats_new := whats_new release |}
     end))
    (fun e => release_unavailable e).

Definition exists_detail (release : ReleaseModel) : string :=
  "Release " ++ version release ++ " already exists".

Definition create_release (release : ReleaseModel) : M ReleaseModel :=
  try_except
    (bind _ensure_indexes (fun _ =>
     bind (if is_latest release then update_many_unmark else ret tt) (fun _ =>
     let doc := release in
     bind utcnow (fun now =>
     let doc := set_created_at now doc in
     bind (insert_one doc) (fun _ =>
     ret release)))))
    (fun e =>
       if PyStr.contains "duplicate key" (PyStr.lower (str e))
       then raise (HTTPException 409 (exists_detail release))
       else release_unavailable e).

(** A world whose server answers every round trip. *)
Definition reliable (c : Collection) (clk : nat -> datetime) (n : nat) : World :=
  {| coll := c; net := []; clock := clk; tick := n |}.

End Releases.

(* ================================================================== *)
(** * Vocabulary of the release statements *)

(** The answer [get_latest_release] builds from the outcome of the query. *)
Definition latest_response (current_version : option string)
    (doc : option Releases.Document) : Releases.LatestReleaseResponse :=
  match doc with
  | None =>
      {| Releases.available := false;
         Releases.latest_version := Releases.or_unknown current_version;
         Releases.latest_release_date := None;
         Releases.latest_download_url := None;
         Releases.latest_release_notes := None;
         Releases.latest_whats_new := None |}
  | Some doc =>
      {| Releases.available :=
           match current_version with
           | Some cv =>
               if Releases.truthy current_version
               then Releases._is_newer
                      (Releases.version (Releases.fields doc)) cv
               else false
           | None => false
           end;
         Releases.latest_version := Releases.version (Releases.fields doc);
         Releases.latest_release_date :=
           Some (Releases.release_date (Releases.fields doc));
         Releases.latest_download_url :=
           Releases.download_url (Releases.fields doc);
         Releases.latest_release_notes :=
           Releases.release_notes (Releases.fields doc);
         Releases.latest_whats_new :=
           Releases.whats_new (Releases.fields doc) |}
  end.

(** The documents [create_release] inserts into: unmarked when the new
    release is marked latest. *)
Definition shelf (r : Releases.ReleaseModel) (ds : list Releases.Document)
    : list Releases.Document :=
  if Releases.is_latest r then map Releases.unmark ds else ds.

Definition published (r : Releases.ReleaseModel)
    (ds : list Releases.Document) (now : datetime) : Releases.Document :=
  {| Releases._id := Releases.fresh_id (shelf r ds);
     Releases.fields := Releases.set_created_at now r |}.

(* ================================================================== *)
(** * A release catalog *)

Module ReleaseSamples.

Definition v021 : Releases.ReleaseModel :=
  {| Releases.version := "0.2.1"; Releases.release_date := 100;
     Releases.download_url := Some "https://example.org/0.2.1";
     Releases.release_notes := Some "Initial release";
     Releases.whats_new := Some ["Templates sync from the server"];
     Releases.is_latest := true; Releases.min_version := None;
     Releases.platform := "all"; Releases.created_at := 100 |}.

Definition v030 (latest : bool) : Releases.ReleaseModel :=
  {| Releases.version := "0.3.0"; Releases.release_date := 200;
     Releases.download_url := Some "https://example.org/0.3.0";
     Releases.release_notes := None;
     Releases.whats_new := None;
     Releases.is_latest := latest; Releases.min_version := Some "0.2.0";
     Releases.platform := "all"; Releases.created_at := 0 |}.

(** [v021] published once more. *)
Definition v021_again : Releases.ReleaseModel :=
  {| Releases.version := "0.2.1"; Releases.release_date := 300;
     Releases.download_url := None;
     Releases.release_notes := Some "Rebuilt";
     Releases.whats_new := None;
     Releases.is_latest := true; Releases.min_version := None;
     Releases.platform := "all"; Releases.created_at := 0 |}.

Definition catalog : Releases.Collection :=
  {| Releases.docs := [ {| Releases._id := 1%N; Releases.fields := v021 |} ];
     Releases.unique_version := true |}.

Definition ticking : nat -> datetime := fun n => 5000 + Z.of_nat n.

End ReleaseSamples.

(* ================================================================== *)
(** ** scripts/seed_templates.py *)

Module SeedTemplates.

(** A file of the templates directory: the stem of its name and the fields
    the script reads from its JSON, in the shape the models give them. *)
Record TemplateFile := {
  stem : string;
  data_name : string;
  data_description : string;
  data_sections : list TemplateSectionModel;
  data_global_instruction : option string;
  data_clinical_safety_rules : option (list string)
}.

(** What ends the script early: [sys.exit(code)], or an exception, which
    nothing in the script catches. *)
Inductive BaseException :=
| SystemExit (code : Z)
| Exception (e : exn).

Definition Script (A : Type) := World -> (BaseException + A) * World.

Definition run {A} (m : M A) : Script A :=
  fun w => match m w with
           | (inl e, w') => (inl (Exception e), w')
           | (inr a, w') => (inr a, w')
           end.

Definition sys_exit {A} (code : Z) : Script A :=
  fun w => (inl (SystemExit code), w).

Definition and_then {A B} (m : Script A) (k : A -> Script B) : Script B :=
  fun w => match m w with
           | (inl e, w') => (inl e, w')
           | (inr a, w') => k a w'
           end.

(** The dictionary [doc] of the loop: every field of a stored template but
    [created_at], for which [created] stands. *)
Definition doc (template_file : TemplateFile) (now created : datetime)
    : TemplateModel :=
  {| template_id := stem template_file;
     client_id := "default";
     name := data_name template_file;
     description := data_description template_file;
     sections := data_sections template_file;
     global_instruction := data_global_instruction template_file;
     clinical_safety_rules := data_clinical_safety_rules template_file;
     version := 1;
     is_active := true;
     created_at := created;
     updated_at := now |}.

(** [collection.update_one(q, {"$set": set, "$setOnInsert": {"created_at":
    on_insert}}, upsert=True)], where [set] has every field but
    [created_at] and agrees with [q] on the fields [q] constrains: the first
    match is rewritten in place and keeps its [created_at]; when nothing
    matches a document is inserted.  The answer is [result.upserted_id]. *)
Definition update_one_upsert (q : Query) (set : datetime -> TemplateModel)
    (on_insert : datetime) : M (option ObjectId) :=
  round_trip ;;;
  c <- get_coll ;;
  match split_first q (docs c) with
  | Some (before, d, after) =>
      let r := {| _id := _id d; fields := set (created_at (fields d)) |} in
      if unique_index c && has_key (doc_key r) (before ++ after)
      then raise DuplicateKeyError
      else
        put_coll {| docs := before ++ r :: after;
                    unique_index := unique_index c |} ;;;
        ret None
  | None =>
      let r := set on_insert in
      if unique_index c && has_key (key r) (docs c)
      then raise DuplicateKeyError
      else
        let oid := fresh_id (docs c) in
        put_coll {| docs := docs c ++ [ {| _id := oid; fields := r |} ];
                    unique_index := unique_index c |} ;;;
        ret (Some oid)
  end.

(** [collection.count_documents({})] *)
Definition count_documents : M nat :=
  round_trip ;;;
  c <- get_coll ;;
  ret (List.length (docs c)).

(** [client.admin.command("ping")] *)
Definition ping : M unit := round_trip.

Inductive action := inserted | updated.

(** The loop over the template files; the answer is what it prints, line
    by line: the action, the template id and the name. *)
Fixpoint upsert_each (template_files : list TemplateFile)
    : M (list (action * string * string)) :=
  match template_files with
  | [] => ret []
  | template_file :: rest =>
      let template_id := stem template_file in
      now <- utcnow ;;
      on_insert <- utcnow ;;
      upserted_id <- update_one_upsert
                       {| q_template_id := Some template_id;
                          q_client_id := Some "default";
                          q_is_active := None |}
                       (doc template_file now) on_insert ;;
      let action := match upserted_id with
                    | Some _ => inserted
                    | None => updated
                    end in
      lines <- upsert_each rest ;;
      ret ((action, template_id, data_name template_file) :: lines)
  end.

(** What a completed run has printed. *)
Record Summary := {
  lines : list (action * string * string);
  processed : nat;
  count : nat
}.

(** [seed()], given the parsed files of the templates directory in the
    order [sorted] puts their paths. *)
Definition seed (template_files : list TemplateFile) : Script Summary :=
  and_then
    (run (ping ;;;
          create_unique_index ;;;
          create_index "client_id" ;;;
          create_index "updated_at"))
    (fun _ =>
       match template_files with
       | [] => sys_exit 1
       | _ :: _ =>
           run (lines <- upsert_each template_files ;;
                count <- count_documents ;;
                ret {| lines := lines;
                       processed := List.length template_files;
                       count := count |})
       end).

End SeedTemplates.

(* ================================================================== *)
(** * Vocabulary of the seeding statements *)

(** The computation ended by a result or by an error of the driver. *)
Definition driver_error {A} (r : exn + A) : Prop :=
  forall e, r = inl e -> exists msg, e = PyMongoError msg.

(** Is [k] the key under which the script stores one of the files? *)
Definition seeds (template_files : list SeedTemplates.TemplateFile)
    (k : string * string) : Prop :=
  exists f, In f template_files /\ k = (SeedTemplates.stem f, default).

(** [d'] is what a run over the files may have made of the stored document
    [d]: the same [_id], key and [created_at]; and [d] itself unless the
    script stores a file under its key. *)
Definition kept (template_files : list SeedTemplates.TemplateFile)
    (d d' : Document) : Prop :=
  _id d' = _id d /\ doc_key d' = doc_key d
  /\ created_at (fields d') = created_at (fields d)
  /\ (~ seeds template_files (doc_key d) -> d' = d).

(** The documents of [c] are those of [c0], each kept in its place, followed
    by documents stored under keys of the files. *)
Definition seeded_from (template_files : list SeedTemplates.TemplateFile)
    (c0 c : Collection) : Prop :=
  exists upd added,
    docs c = upd ++ added
    /\ Forall2 (kept template_files) (docs c0) upd
    /\ Forall (fun d => seeds template_files (doc_key d)) added.

(** The documents after one upsert of the file on a uniquely keyed
    collection. *)
Definition upsert_docs (f : SeedTemplates.TemplateFile)
    (now on_insert : datetime) (ds : list Document) : list Document :=
  match split_first (update_query (SeedTemplates.stem f) default) ds with
  | Some (before, d, after) =>
      before
      ++ {| _id := _id d;
            fields := SeedTemplates.doc f now (created_at (fields d)) |}
      :: after
  | None =>
      ds ++ [ {| _id := fresh_id ds;
                 fields := SeedTemplates.doc f now on_insert |} ]
  end.

(** The documents after the loop of a run that starts at clock reading
    [n]. *)
Fixpoint seed_docs (template_files : list SeedTemplates.TemplateFile)
    (clk : nat -> datetime) (n : nat) (ds : list Document) : list Document :=
  match template_files with
  | [] => ds
  | f :: rest =>
      seed_docs rest clk (S (S n)) (upsert_docs f (clk n) (clk (S n)) ds)
  end.

(** The lines the loop prints on the documents [ds]. *)
Fixpoint seed_lines (template_files : list SeedTemplates.TemplateFile)
    (clk : nat -> datetime) (n : nat) (ds : list Document)
    : list (SeedTemplates.action * string * string) :=
  match template_files with
  | [] => []
  | f :: rest =>
      ((if has_key (SeedTemplates.stem f, default) ds
        then SeedTemplates.updated else SeedTemplates.inserted),
       SeedTemplates.stem f, SeedTemplates.data_name f)
      :: seed_lines rest clk (S (S n)) (upsert_docs f (clk n) (clk (S n)) ds)
  end.

(** The stored record is that of the file, whatever its two dates. *)
Definition holds_file (f : SeedTemplates.TemplateFile) (t : TemplateModel)
    : Prop :=
  exists now created, t = SeedTemplates.doc f now created.

(** The same document but for [updated_at]. *)
Definition same_but_updated_at (d d' : Document) : Prop :=
  _id d' = _id d
  /\ set_updated_at 0 (fields d') = set_updated_at 0 (fields d).

Module SeedSamples.
Import Samples.

Definition soap_file : SeedTemplates.TemplateFile :=
  {| SeedTemplates.stem := "A1";
     SeedTemplates.data_name := "SOAP note (2024)";
     SeedTemplates.data_description := "Subjective and plan";
     SeedTemplates.data_sections := [subjective; plan];
     SeedTemplates.data_global_instruction := None;
     SeedTemplates.data_clinical_safety_rules := Some ["No diagnosis"] |}.

Definition referral_file : SeedTemplates.TemplateFile :=
  {| SeedTemplates.stem := "R4";
     SeedTemplates.data_name := "Referral";
     SeedTemplates.data_description := "Referral letter";
     SeedTemplates.data_sections := [plan];
     SeedTemplates.data_global_instruction := Some "Be brief";
     SeedTemplates.data_clinical_safety_rules := None |}.

Definition files : list SeedTemplates.TemplateFile :=
  [soap_file; referral_file].

End SeedSamples.

(* ================================================================== *)
(** ** scripts/seed_release.py *)

Module SeedRelease.
Import Releases.


(** The documents before the first one of version [v], that document, and
    the documents after it. *)
Fixpoint split_version (v : string) (ds : list Document)
    : option (list Document * Document * list Document) :=
  match ds with
  | [] => None
  | d :: ds' =>
      if String.eqb (version (fields d)) v then Some ([], d, ds')
      else match split_version v ds' with
           | Some (before, m, after) => Some (d :: before, m, after)
           | None => None
           end
  end.

(** [collection.update_one({"version": v}, {"$set": set}, upsert=True)],
    where [set] has every field of a release, [version] being [v]: the
    first match is rewritten in place, and when nothing matches a document
    is inserted.  The answer is [result.upserted_id]. *)
Definition update_one_upsert (v : string) (set : ReleaseModel)
    : M (option ObjectId) :=
  bind round_trip (fun _ =>
  bind get_coll (fun c =>
  match split_version v (docs c) with
  | Some (before, d, after) =>
      if unique_version c && has_version (version set) (before ++ after)
      then raise DuplicateKeyError
      else
        bind (put_coll {| docs := before
                             ++ {| _id := _id d; fields := set |} :: after;
                          unique_version := unique_version c |})
             (fun _ => ret None)
  | None =>
      if unique_version c && has_version (version set) (docs c)
      then raise DuplicateKeyError
      else
        let oid := fresh_id (docs c) in
        bind (put_coll {| docs := docs c ++ [ {| _id := oid; fields := set |} ];
                          unique_version := unique_version c |})
             (fun _ => ret (Some oid))
  end)).




End SeedRelease.


(* ================================================================== *)
(** * Properties *)

(** ** Queries *)

Lemma matches_active_query tid cid d :
  matches (active_query tid cid) d = true <->
  doc_key d = (tid, cid) /\ is_active (fields d) = true.
Proof.
  unfold matches, active_query, doc_key, key; simpl.
  rewrite !andb_true_iff, !String.eqb_eq.
  destruct (is_active (fields d)); simpl; split.
  - intros [[-> ->] _]; auto.
  - intros [H _]; inversion H; auto.
  - intros [_ H]; discriminate.
  - intros [_ H]; discriminate.
Qed.

Lemma matches_client_query cid d :
  matches (client_query cid) d = true <->
  client_id (fields d) = cid /\ is_active (fields d) = true.
Proof.
  unfold matches, client_query; simpl.
  rewrite andb_true_iff, String.eqb_eq.
  destruct (is_active (fields d)); simpl; split.
  - intros [-> _]; auto.
  - intros [-> _]; auto.
  - intros [_ H]; discriminate.
  - intros [_ H]; discriminate.
Qed.

Lemma key_eqb_eq k1 k2 : key_eqb k1 k2 = true <-> k1 = k2.
Proof.
  destruct k1 as [a b], k2 as [a' b']; unfold key_eqb; simpl.
  rewrite andb_true_iff, !String.eqb_eq; split.
  - intros [-> ->]; reflexivity.
  - intros H; inversion H; auto.
Qed.

Lemma has_key_In k ds :
  has_key k ds = true <-> exists d, In d ds /\ doc_key d = k.
Proof.
  unfold has_key; rewrite existsb_exists; split;
    intros [d [Hin H]]; exists d; split; auto; apply key_eqb_eq; auto.
Qed.

Lemma has_key_false k ds :
  has_key k ds = false <-> forall d, In d ds -> doc_key d <> k.
Proof.
  split.
  - intros H d Hin Hk.
    assert (has_key k ds = true) by (apply has_key_In; eauto). congruence.
  - intros H; destruct (has_key k ds) eqn:E; auto.
    apply has_key_In in E; destruct E as [d [Hin Hk]]; elim (H d Hin Hk).
Qed.

Lemma dup_keys_false ds :
  dup_keys ds = false <-> NoDup (map doc_key ds).
Proof.
  induction ds as [|d ds IH]; simpl.
  - split; auto using NoDup_nil.
  - rewrite orb_false_iff, IH, has_key_false; split.
    + intros [H1 H2]; constructor; auto.
      intros Hin; apply in_map_iff in Hin; destruct Hin as [d' [E Hd']].
      exact (H1 d' Hd' E).
    + intros H; inversion H; subst; split; auto.
      intros d' Hd' E; apply H2; rewrite <- E; apply in_map; auto.
Qed.

(** Under the unique index a key names at most one document. *)
Lemma key_names_one ds d1 d2 :
  NoDup (map doc_key ds) -> In d1 ds -> In d2 ds ->
  doc_key d1 = doc_key d2 -> d1 = d2.
Proof.
  induction ds as [|d ds IH]; simpl; [tauto|].
  intros Hnd H1 H2 E; inversion Hnd; subst.
  destruct H1 as [-> | H1], H2 as [-> | H2]; auto.
  - elim H3; rewrite E; apply in_map; auto.
  - elim H3; rewrite <- E; apply in_map; auto.
Qed.

Lemma find_unique q ds d :
  NoDup (map doc_key ds) -> In d ds -> matches q d = true ->
  (forall d', In d' ds -> matches q d' = true -> doc_key d' = doc_key d) ->
  List.find (matches q) ds = Some d.
Proof.
  intros Hnd Hin Hm Hk.
  destruct (List.find (matches q) ds) as [d'|] eqn:E.
  - apply find_some in E; destruct E as [Hin' Hm'].
    f_equal; apply (key_names_one ds); auto.
  - apply (find_none _ _ E) in Hin; congruence.
Qed.

(** ** Running the collection operations on a reliable server *)

Lemma find_reliable q c clk n :
  find q (reliable c clk n) = (inr (filter (matches q) (docs c)), reliable c clk n).
Proof. reflexivity. Qed.

Lemma find_one_reliable q c clk n :
  find_one q (reliable c clk n)
  = (inr (List.find (matches q) (docs c)), reliable c clk n).
Proof. reflexivity. Qed.

Lemma get_template_reliable tid cid c clk n :
  get_template tid cid (reliable c clk n) =
  (match (if negb (String.eqb cid default)
          then List.find (matches (active_query tid cid)) (docs c)
          else None) with
   | Some doc => inr (_doc_to_model doc)
   | None =>
       match List.find (matches (active_query tid default)) (docs c) with
       | Some doc => inr (_doc_to_model doc)
       | None => inl (HTTPException 404 (not_found_detail tid))
       end
   end, reliable c clk n).
Proof.
  unfold get_template, try_except, bind.
  destruct (negb (String.eqb cid default)).
  - rewrite find_one_reliable; fold (active_query tid cid).
    destruct (List.find (matches (active_query tid cid)) (docs c)); [reflexivity|].
    rewrite find_one_reliable; fold (active_query tid default).
    destruct (List.find (matches (active_query tid default)) (docs c)); reflexivity.
  - unfold ret. rewrite find_one_reliable; fold (active_query tid default).
    destruct (List.find (matches (active_query tid default)) (docs c)); reflexivity.
Qed.

(** ** Point resolution *)

(** C1. For a client other than "default": when an active override
    [(template_id, client_id)] is stored, [get_template] returns it (a record
    of that client, so not the default); when every stored override of the
    pair is inactive, or there is none, and an active default is stored,
    [get_template] returns the default. *)
Theorem get_template_override_then_default tid cid c clk n :
  cid <> default ->
  NoDup (map doc_key (docs c)) ->
  (forall d, In d (docs c) -> doc_key d = (tid, cid) ->
     is_active (fields d) = true ->
     get_template tid cid (reliable c clk n)
     = (inr (_doc_to_model d), reliable c clk n)
     /\ client_id (_doc_to_model d) <> default)
  /\
  (forall d0,
     (forall d, In d (docs c) -> doc_key d = (tid, cid) ->
        is_active (fields d) = false) ->
     In d0 (docs c) -> doc_key d0 = (tid, default) ->
     is_active (fields d0) = true ->
     get_template tid cid (reliable c clk n)
     = (inr (_doc_to_model d0), reliable c clk n)).
Proof.
  intros Hcid Hnd.
  assert (Hneq : negb (String.eqb cid default) = true).
  { apply negb_true_iff, String.eqb_neq; exact Hcid. }
  split.
  - intros d Hin Hk Ha. split.
    + rewrite get_template_reliable, Hneq.
      rewrite (find_unique (active_query tid cid) (docs c) d); auto.
      * apply matches_active_query; auto.
      * intros d' _ Hm; apply matches_active_query in Hm.
        destruct Hm as [-> _]; auto.
    + unfold _doc_to_model. unfold doc_key, key in Hk.
      inversion Hk; subst; exact Hcid.
  - intros d0 Hover Hin Hk Ha.
    rewrite get_template_reliable, Hneq.
    destruct (List.find (matches (active_query tid cid)) (docs c)) as [d'|] eqn:E.
    + apply find_some in E; destruct E as [Hin' Hm'].
      apply matches_active_query in Hm'; destruct Hm' as [Hk' Ha'].
      rewrite (Hover d' Hin' Hk') in Ha'; discriminate.
    + rewrite (find_unique (active_query tid default) (docs c) d0); auto.
      * apply matches_active_query; auto.
      * intros d' _ Hm; apply matches_active_query in Hm.
        destruct Hm as [-> _]; auto.
Qed.

(** C3. When no active default and no active document of the client is
    stored for a template id (inactive ones may be), [get_template] fails
    with status 404 and a detail that names the requested id. *)
Theorem get_template_absent tid cid c clk n :
  (forall d, In d (docs c) -> template_id (fields d) = tid ->
     client_id (fields d) = cid \/ client_id (fields d) = default ->
     is_active (fields d) = false) ->
  get_template tid cid (reliable c clk n)
  = (inl (HTTPException 404 ("Template '" ++ tid ++ "' not found")),
     reliable c clk n).
Proof.
  intros H.
  assert (Hnone : forall x, x = cid \/ x = default ->
            List.find (matches (active_query tid x)) (docs c) = None).
  { intros x Hx.
    destruct (List.find (matches (active_query tid x)) (docs c)) as [d|] eqn:E; auto.
    apply find_some in E; destruct E as [Hin Hm].
    apply matches_active_query in Hm; destruct Hm as [Hk Ha].
    inversion Hk; subst.
    rewrite (H d Hin eq_refl) in Ha; [discriminate|].
    destruct Hx as [<- | ->]; auto. }
  rewrite get_template_reliable.
  rewrite (Hnone default) by auto.
  destruct (negb (String.eqb cid default)); [rewrite (Hnone cid) by auto|];
    reflexivity.
Qed.

(** ** Dictionaries *)

Module PyDictFacts.
Import PyDict.

Section Facts.
Context {V : Type}.
Implicit Types (k : string) (v : V) (d : t V).

Lemma get_set_same k v d : get k (set k v d) = Some v.
Proof.
  induction d as [|[k' v'] d IH]; simpl.
  - rewrite String.eqb_refl; reflexivity.
  - destruct (String.eqb k' k) eqn:E; simpl.
    + rewrite String.eqb_refl; reflexivity.
    + rewrite E; exact IH.
Qed.

Lemma get_set_other k k' v d : k' <> k -> get k' (set k v d) = get k' d.
Proof.
  intros Hne; induction d as [|[k0 v0] d IH]; simpl.
  - apply String.eqb_neq in Hne. rewrite String.eqb_sym, Hne; reflexivity.
  - destruct (String.eqb k0 k) eqn:E; simpl.
    + apply String.eqb_eq in E; subst k0.
      apply String.eqb_neq in Hne. rewrite String.eqb_sym, Hne; reflexivity.
    + destruct (String.eqb k0 k'); auto.
Qed.

Lemma keys_set k v d :
  forall x, In x (keys (set k v d)) <-> x = k \/ In x (keys d).
Proof.
  induction d as [|[k0 v0] d IH]; simpl; intros x.
  - intuition.
  - destruct (String.eqb k0 k) eqn:E; simpl.
    + apply String.eqb_eq in E; subst; intuition.
    + rewrite IH; intuition.
Qed.

Lemma keys_set_NoDup k v d : NoDup (keys d) -> NoDup (keys (set k v d)).
Proof.
  induction d as [|[k0 v0] d IH]; simpl; intros H.
  - constructor; [simpl; tauto | constructor].
  - inversion H; subst.
    destruct (String.eqb k0 k) eqn:E; simpl.
    + apply String.eqb_eq in E; subst; constructor; auto.
    + constructor; auto.
      intros Hin; apply keys_set in Hin; destruct Hin as [-> | Hin]; auto.
      rewrite String.eqb_refl in E; discriminate.
Qed.

Lemma get_None k d : get k d = None -> ~ In k (keys d).
Proof.
  induction d as [|[k0 v0] d IH]; simpl; auto.
  destruct (String.eqb k0 k) eqn:E; [discriminate|].
  intros H [-> | Hin]; [rewrite String.eqb_refl in E; discriminate|].
  exact (IH H Hin).
Qed.

Lemma In_get k v d : NoDup (keys d) -> (In (k, v) d <-> get k d = Some v).
Proof.
  induction d as [|[k0 v0] d IH]; simpl; intros H.
  - split; [tauto | discriminate].
  - inversion H; subst.
    destruct (String.eqb k0 k) eqn:E.
    + apply String.eqb_eq in E; subst; split.
      * intros [Heq | Hin]; [inversion Heq; reflexivity|].
        elim H2; change k with (fst (k, v)); apply in_map; exact Hin.
      * intros Heq; inversion Heq; auto.
    + rewrite <- IH by assumption; split; auto.
      intros [Heq | Hin]; auto.
      inversion Heq; subst; rewrite String.eqb_refl in E; discriminate.
Qed.
End Facts.

End PyDictFacts.

Lemma keyed_set v d :
  keyed d -> keyed (PyDict.set (template_id (fields v)) v d).
Proof.
  unfold keyed; induction d as [|[k0 v0] d IH]; simpl; intros H k x.
  - intros [E | []]; inversion E; reflexivity.
  - destruct (String.eqb k0 (template_id (fields v))); simpl.
    + intros [E | Hin]; [inversion E; reflexivity | apply H; auto].
    + intros [E | Hin]; [apply H; auto|].
      apply IH; auto.
Qed.

Lemma merge_docs_keyed l d : keyed d -> keyed (merge_docs l d).
Proof.
  revert d; induction l as [|x l IH]; simpl; intros d H; auto.
  apply IH, keyed_set, H.
Qed.

Lemma merge_docs_NoDup l d :
  NoDup (PyDict.keys d) -> NoDup (PyDict.keys (merge_docs l d)).
Proof.
  revert d; induction l as [|x l IH]; simpl; intros d H; auto.
  apply IH, PyDictFacts.keys_set_NoDup, H.
Qed.

(** With one document per template id in the cursor, the merged dictionary
    holds the cursor's document under each of its ids and is unchanged
    elsewhere. *)
Lemma merge_docs_get k l d :
  NoDup (map (fun doc => template_id (fields doc)) l) ->
  PyDict.get k (merge_docs l d)
  = match List.find (has_tid k) l with
    | Some doc => Some doc
    | None => PyDict.get k d
    end.
Proof.
  revert d; induction l as [|x l IH]; simpl; intros d H; auto.
  inversion H; subst. rewrite IH by assumption.
  unfold has_tid at 2.
  destruct (String.eqb (template_id (fields x)) k) eqn:E.
  - apply String.eqb_eq in E; subst k.
    destruct (List.find (has_tid (template_id (fields x))) l) as [y|] eqn:F.
    + apply find_some in F; destruct F as [Hin Hy].
      apply String.eqb_eq in Hy. elim H2. rewrite <- Hy.
      apply (in_map (fun doc => template_id (fields doc))); exact Hin.
    + apply PyDictFacts.get_set_same.
  - destruct (List.find (has_tid k) l); auto.
    apply PyDictFacts.get_set_other.
    intros ->; rewrite String.eqb_refl in E; discriminate.
Qed.

Lemma In_values_get (d : PyDict.t Document) v :
  keyed d -> NoDup (PyDict.keys d) ->
  (In v (PyDict.values d) <-> PyDict.get (template_id (fields v)) d = Some v).
Proof.
  intros Hk Hnd; rewrite <- PyDictFacts.In_get by assumption.
  unfold PyDict.values; rewrite in_map_iff; split.
  - intros [[k x] [E Hin]]; simpl in E; subst x.
    rewrite <- (Hk k v Hin); exact Hin.
  - intros Hin; exists (template_id (fields v), v); auto.
Qed.

Lemma keys_values_keyed (d : PyDict.t Document) :
  keyed d ->
  map template_id (map _doc_to_model (PyDict.values d)) = PyDict.keys d.
Proof.
  unfold PyDict.values, PyDict.keys, _doc_to_model.
  induction d as [|[k v] d IH]; simpl; intros H; auto.
  rewrite IH by (intros k' v' Hin; apply H; right; exact Hin).
  rewrite <- (H k v) by (left; reflexivity); reflexivity.
Qed.

(** ** Cursors over a uniquely keyed collection *)

Lemma find_filter {A} (P Q : A -> bool) l :
  List.find P (filter Q l) = List.find (fun x => Q x && P x) l.
Proof.
  induction l as [|x l IH]; simpl; auto.
  destruct (Q x); simpl; [rewrite IH|]; auto.
Qed.

Lemma find_pointwise {A} (P Q : A -> bool) l :
  (forall x, P x = Q x) -> List.find P l = List.find Q l.
Proof.
  intros H; induction l as [|x l IH]; simpl; auto.
  rewrite H, IH; reflexivity.
Qed.

Lemma find_in_cursor k cid ds :
  List.find (has_tid k) (filter (matches (client_query cid)) ds)
  = List.find (matches (active_query k cid)) ds.
Proof.
  rewrite find_filter; apply find_pointwise; intros x.
  unfold has_tid, matches, client_query, active_query; simpl.
  rewrite (String.eqb_sym (template_id (fields x)) k).
  destruct (String.eqb k (template_id (fields x))),
           (String.eqb cid (client_id (fields x))),
           (is_active (fields x)); reflexivity.
Qed.

Lemma cursor_tids_NoDup cid ds :
  NoDup (map doc_key ds) ->
  NoDup (map (fun doc => template_id (fields doc))
             (filter (matches (client_query cid)) ds)).
Proof.
  induction ds as [|d ds IH]; simpl; intros H; [constructor|].
  inversion H; subst.
  destruct (matches (client_query cid) d) eqn:E; simpl; auto.
  constructor; auto.
  intros Hin; apply in_map_iff in Hin; destruct Hin as [d' [Ht Hd']].
  apply filter_In in Hd'; destruct Hd' as [Hd' Hm].
  apply matches_client_query in E, Hm.
  elim H2. apply in_map_iff; exists d'; split; auto.
  unfold doc_key, key. destruct E as [-> _], Hm as [-> _].
  rewrite Ht; reflexivity.
Qed.

(** ** Sorting by name *)

Lemma insert_by_name_perm x l : Permutation (x :: l) (insert_by_name x l).
Proof.
  induction l as [|y l IH]; simpl; auto.
  destruct (String.leb (name x) (name y)); auto.
  eapply perm_trans; [apply perm_swap|]; auto.
Qed.

Lemma sort_by_name_perm l : Permutation l (sort_by_name l).
Proof.
  induction l as [|x l IH]; simpl; auto.
  eapply perm_trans; [|apply insert_by_name_perm]; auto.
Qed.

Lemma insert_by_name_sorted x l :
  Sorted name_le l -> Sorted name_le (insert_by_name x l).
Proof.
  induction l as [|y l IH]; simpl; intros H.
  - repeat constructor.
  - destruct (String.leb (name x) (name y)) eqn:E.
    + constructor; auto.
    + inversion H; subst. constructor; auto.
      assert (Hyx : name_le y x).
      { destruct (String.leb_total (name x) (name y)); [congruence | assumption]. }
      destruct l as [|z l]; simpl.
      * constructor; exact Hyx.
      * destruct (String.leb (name x) (name z)); constructor; auto.
        inversion H3; assumption.
Qed.

Lemma sort_by_name_sorted l : Sorted name_le (sort_by_name l).
Proof.
  induction l as [|x l IH]; simpl; [constructor|].
  apply insert_by_name_sorted; exact IH.
Qed.

Lemma leb_trans s1 s2 s3 :
  String.leb s1 s2 = true -> String.leb s2 s3 = true ->
  String.leb s1 s3 = true.
Proof.
  unfold String.leb.
  destruct (String.compare s1 s2) eqn:E12; [| |discriminate];
    destruct (String.compare s2 s3) eqn:E23; try discriminate; intros _ _.
  - apply String.compare_eq_iff in E12; subst; rewrite E23; reflexivity.
  - apply String.compare_eq_iff in E12; subst; rewrite E23; reflexivity.
  - apply String.compare_eq_iff in E23; subst; rewrite E12; reflexivity.
  - apply OrderedTypeEx.String_as_OT.cmp_lt in E12, E23.
    pose proof (OrderedTypeEx.String_as_OT.lt_trans _ _ _ E12 E23) as H.
    apply OrderedTypeEx.String_as_OT.cmp_lt in H.
    unfold OrderedTypeEx.String_as_OT.cmp in H; rewrite H; reflexivity.
Qed.

Lemma sort_by_name_strongly_sorted l : StronglySorted name_le (sort_by_name l).
Proof.
  apply Sorted_StronglySorted; [|apply sort_by_name_sorted].
  intros a b c; unfold name_le; apply leb_trans.
Qed.

(** ** List resolution *)

Lemma list_templates_reliable cid c clk n :
  list_templates cid (reliable c clk n)
  = (inr {| templates :=
              sort_by_name (map _doc_to_model (PyDict.values (resolved cid c)));
            sync_timestamp := clk n |},
     reliable c clk (S n)).
Proof.
  unfold list_templates, try_except, bind, resolved.
  rewrite find_reliable.
  destruct (negb (String.eqb cid default)); [rewrite find_reliable|];
    reflexivity.
Qed.

Lemma resolved_keyed cid c : keyed (resolved cid c).
Proof.
  unfold resolved.
  assert (keyed (@nil (string * Document))) by (intros k v []).
  destruct (negb (String.eqb cid default)); repeat apply merge_docs_keyed; auto.
Qed.

Lemma resolved_NoDup cid c : NoDup (PyDict.keys (resolved cid c)).
Proof.
  unfold resolved.
  destruct (negb (String.eqb cid default)); repeat apply merge_docs_NoDup;
    constructor.
Qed.

Lemma resolved_get k cid c :
  NoDup (map doc_key (docs c)) ->
  PyDict.get k (resolved cid c)
  = match (if negb (String.eqb cid default)
           then List.find (matches (active_query k cid)) (docs c)
           else None) with
    | Some doc => Some doc
    | None => List.find (matches (active_query k default)) (docs c)
    end.
Proof.
  intros Hnd; unfold resolved.
  destruct (negb (String.eqb cid default)).
  - rewrite !merge_docs_get by (apply cursor_tids_NoDup; exact Hnd).
    rewrite !find_in_cursor; simpl.
    destruct (List.find (matches (active_query k cid)) (docs c)); auto.
    destruct (List.find (matches (active_query k default)) (docs c)); auto.
  - rewrite merge_docs_get by (apply cursor_tids_NoDup; exact Hnd).
    rewrite find_in_cursor; simpl.
    destruct (List.find (matches (active_query k default)) (docs c)); auto.
Qed.

Lemma find_active_None k cid ds :
  List.find (matches (active_query k cid)) ds = None <->
  (forall d, In d ds -> template_id (fields d) = k ->
     client_id (fields d) = cid -> is_active (fields d) = false).
Proof.
  split.
  - intros E d Hin Ht Hc.
    pose proof (find_none _ _ E d Hin) as Hm.
    destruct (is_active (fields d)) eqn:Ha; auto.
    assert (matches (active_query k cid) d = true).
    { apply matches_active_query; unfold doc_key, key; subst; auto. }
    congruence.
  - intros H.
    destruct (List.find (matches (active_query k cid)) ds) as [d|] eqn:E; auto.
    apply find_some in E; destruct E as [Hin Hm].
    apply matches_active_query in Hm; destruct Hm as [Hk Ha].
    inversion Hk; subst. rewrite (H d Hin eq_refl eq_refl) in Ha; discriminate.
Qed.

Lemma find_active_Some k cid ds d :
  NoDup (map doc_key ds) ->
  (List.find (matches (active_query k cid)) ds = Some d <->
   In d ds /\ doc_key d = (k, cid) /\ is_active (fields d) = true).
Proof.
  intros Hnd; split.
  - intros E; apply find_some in E; destruct E as [Hin Hm].
    apply matches_active_query in Hm; tauto.
  - intros [Hin [Hk Ha]]. apply find_unique; auto.
    + apply matches_active_query; auto.
    + intros d' _ Hm; apply matches_active_query in Hm.
      destruct Hm as [-> _]; auto.
Qed.

Lemma In_resolved cid c d :
  NoDup (map doc_key (docs c)) ->
  (In d (PyDict.values (resolved cid c)) <-> visible c cid d).
Proof.
  intros Hnd.
  rewrite In_values_get by (apply resolved_keyed || apply resolved_NoDup).
  rewrite resolved_get by assumption.
  unfold visible.
  destruct (String.eqb cid default) eqn:Ecid; simpl.
  - apply String.eqb_eq in Ecid; subst cid.
    rewrite find_active_Some by assumption. unfold doc_key, key. split.
    + intros [Hin [Hk Ha]]; inversion Hk; auto.
    + intros [Hin [Ha [Hc | [Hc _]]]]; rewrite Hc; auto.
  - apply String.eqb_neq in Ecid.
    destruct (List.find (matches (active_query (template_id (fields d)) cid))
                (docs c)) as [d'|] eqn:E.
    + pose proof E as E'.
      apply find_active_Some in E'; auto. destruct E' as [Hin' [Hk' Ha']].
      split.
      * intros Heq; inversion Heq; subst d'.
        inversion Hk'; auto.
      * intros [Hin [Ha [Hc | [Hc Hno]]]].
        -- f_equal. apply (key_names_one (docs c)); auto.
           rewrite Hk'; unfold doc_key, key; rewrite Hc; reflexivity.
        -- inversion Hk'. rewrite (Hno d' Hin') in Ha'; auto; discriminate.
    + rewrite find_active_Some by assumption.
      rewrite find_active_None in E. unfold doc_key, key. split.
      * intros [Hin [Hk Ha]]; inversion Hk as [Hc]. rewrite Hc. auto 6.
      * intros [Hin [Ha [Hc | [Hc _]]]].
        -- rewrite (E d Hin eq_refl Hc) in Ha; discriminate.
        -- rewrite Hc; auto.
Qed.

(** C2. On a uniquely keyed collection [list_templates] answers with one
    entry per template id that has an active default or an active document
    of the client, and no other entry; the entry is the client's document
    when it has an active one, the default otherwise; the entries come in
    ascending order of [name]. *)
Theorem list_templates_resolution cid c clk n :
  NoDup (map doc_key (docs c)) ->
  exists l,
    list_templates cid (reliable c clk n)
    = (inr {| templates := l; sync_timestamp := clk n |}, reliable c clk (S n))
    /\ NoDup (map template_id l)
    /\ (forall tid, In tid (map template_id l) <->
          exists d, In d (docs c) /\ is_active (fields d) = true
                    /\ template_id (fields d) = tid
                    /\ (client_id (fields d) = cid
                        \/ client_id (fields d) = default))
    /\ (forall t, In t l <-> exists d, visible c cid d /\ t = _doc_to_model d)
    /\ StronglySorted name_le l.
Proof.
  intros Hnd.
  exists (sort_by_name (map _doc_to_model (PyDict.values (resolved cid c)))).
  assert (Hmem : forall t,
            In t (sort_by_name (map _doc_to_model (PyDict.values (resolved cid c))))
            <-> exists d, visible c cid d /\ t = _doc_to_model d).
  { intros t; split.
    - intros Hin.
      apply (Permutation_in _ (Permutation_sym (sort_by_name_perm _))) in Hin.
      apply in_map_iff in Hin; destruct Hin as [d [E Hd]].
      exists d; split; [apply In_resolved; assumption | auto].
    - intros [d [Hv ->]].
      apply (Permutation_in _ (sort_by_name_perm _)).
      apply in_map, In_resolved; assumption. }
  split; [apply list_templates_reliable|].
  split; [|split; [|split; [exact Hmem | apply sort_by_name_strongly_sorted]]].
  - eapply Permutation_NoDup.
    + apply Permutation_map, sort_by_name_perm.
    + rewrite keys_values_keyed by apply resolved_keyed. apply resolved_NoDup.
  - intros tid; rewrite in_map_iff; split.
    + intros [t [Ht Hin]]; apply Hmem in Hin.
      destruct Hin as [d [[Hd [Ha Hc]] ->]].
      exists d; repeat split; auto. tauto.
    + intros [d [Hd [Ha [Ht Hc]]]].
      destruct (String.eqb cid default) eqn:Ecid.
      { apply String.eqb_eq in Ecid; subst cid.
        exists (_doc_to_model d); split; auto.
        apply Hmem; exists d; split; auto.
        repeat split; auto. tauto. }
      destruct (List.find (matches (active_query tid cid)) (docs c))
        as [d'|] eqn:E.
      * apply find_active_Some in E; auto. destruct E as [Hin' [Hk' Ha']].
        unfold doc_key, key in Hk'; injection Hk' as Ht' Hc'.
        exists (_doc_to_model d'); split; auto.
        apply Hmem; exists d'; split; auto. repeat split; auto.
      * rewrite find_active_None in E.
        destruct Hc as [Hc | Hc].
        -- rewrite (E d Hd Ht Hc) in Ha; discriminate.
        -- exists (_doc_to_model d); split; auto.
           apply Hmem; exists d; split; auto.
           repeat split; auto. right; split; auto.
           intros d'' Hin'' Ht'' Hc''. apply E; auto; congruence.
Qed.

(** ** Insert *)

Lemma duplicate_key_is_conflict :
  PyStr.contains "duplicate key" (PyStr.lower (str DuplicateKeyError)) = true.
Proof. reflexivity. Qed.





Lemma NoDup_keys_snoc ds d :
  NoDup (map doc_key ds) -> has_key (doc_key d) ds = false ->
  NoDup (map doc_key (ds ++ [d])).
Proof.
  intros Hnd Hk. rewrite map_app; simpl.
  apply NoDup_app; auto.
  - constructor; [simpl; tauto | constructor].
  - intros k Hin [<- | []].
    apply in_map_iff in Hin; destruct Hin as [d' [E Hd']].
    rewrite has_key_false in Hk; exact (Hk d' Hd' E).
Qed.


(** ** Replace *)

Lemma matches_update_query tid cid d :
  matches (update_query tid cid) d = true <-> doc_key d = (tid, cid).
Proof.
  unfold matches, update_query, doc_key, key; simpl.
  rewrite andb_true_r, andb_true_iff, !String.eqb_eq; split.
  - intros [-> ->]; reflexivity.
  - intros H; inversion H; auto.
Qed.

Lemma split_first_None q ds :
  split_first q ds = None <-> forall d, In d ds -> matches q d = false.
Proof.
  induction ds as [|d ds IH]; simpl.
  - split; auto. intros _ d [].
  - destruct (matches q d) eqn:E.
    + split; [discriminate|]. intros H; rewrite (H d) in E; auto; discriminate.
    + destruct (split_first q ds) as [[[b m] a]|].
      * split; [discriminate|]. intros H.
        destruct IH as [_ IH].
        specialize (IH (fun x Hx => H x (or_intror Hx))); discriminate.
      * split; auto. intros _ x [<- | Hin]; auto. apply IH; auto.
Qed.

Lemma split_first_Some q ds before m after :
  split_first q ds = Some (before, m, after) ->
  ds = before ++ m :: after /\ matches q m = true.
Proof.
  revert before; induction ds as [|d ds IH]; simpl; intros before;
    [discriminate|].
  destruct (matches q d) eqn:E.
  - intros H; inversion H; subst; auto.
  - destruct (split_first q ds) as [[[b x] a]|]; [|discriminate].
    intros H; inversion H; subst.
    destruct (IH b eq_refl) as [-> Hm]; auto.
Qed.

(** On a uniquely keyed collection the replace query finds the one document
    with the pair. *)
Lemma split_first_key tid cid ds d :
  NoDup (map doc_key ds) -> In d ds -> doc_key d = (tid, cid) ->
  exists before after,
    split_first (update_query tid cid) ds = Some (before, d, after)
    /\ ds = before ++ d :: after
    /\ has_key (tid, cid) (before ++ after) = false.
Proof.
  intros Hnd Hin Hk.
  destruct (split_first (update_query tid cid) ds) as [[[b m] a]|] eqn:E.
  - destruct (split_first_Some _ _ _ _ _ E) as [Hds Hm].
    apply matches_update_query in Hm.
    assert (m = d).
    { apply (key_names_one ds); auto; [|congruence].
      rewrite Hds; apply in_or_app; right; left; reflexivity. }
    subst m. exists b, a; repeat split; auto.
    apply has_key_false; intros x Hx Hkx.
    rewrite Hds, map_app in Hnd; simpl in Hnd.
    apply NoDup_remove_2 in Hnd. apply Hnd.
    rewrite <- map_app, Hk, <- Hkx. apply in_map; exact Hx.
  - rewrite split_first_None in E. apply E in Hin.
    apply matches_update_query in Hk; congruence.
Qed.






(** ** The merge step for the default client *)

Lemma set_absent {V} k (v : V) d :
  ~ In k (PyDict.keys d) -> PyDict.set k v d = d ++ [(k, v)].
Proof.
  induction d as [|[k0 v0] d IH]; simpl; intros H; auto.
  destruct (String.eqb k0 k) eqn:E.
  - apply String.eqb_eq in E; subst; elim H; auto.
  - rewrite IH; auto.
Qed.

Lemma set_present {V} k (v : V) d :
  PyDict.get k d = Some v -> PyDict.set k v d = d.
Proof.
  induction d as [|[k0 v0] d IH]; simpl; [discriminate|].
  destruct (String.eqb k0 k) eqn:E.
  - apply String.eqb_eq in E; subst. intros H; inversion H; reflexivity.
  - intros H; rewrite IH; auto.
Qed.

Lemma merge_docs_fresh l d :
  NoDup (PyDict.keys d ++ map (fun doc => template_id (fields doc)) l) ->
  merge_docs l d = d ++ map entry l.
Proof.
  revert d; induction l as [|x l IH]; simpl; intros d H.
  - rewrite app_nil_r; reflexivity.
  - assert (Hx : ~ In (template_id (fields x)) (PyDict.keys d)).
    { intros Hin. apply NoDup_remove_2 in H. apply H.
      apply in_or_app; left; exact Hin. }
    rewrite (set_absent _ _ _ Hx), IH.
    + rewrite <- app_assoc; reflexivity.
    + unfold PyDict.keys in *. rewrite map_app, <- app_assoc; exact H.
Qed.

Lemma merge_docs_same l d :
  (forall x, In x l -> PyDict.get (template_id (fields x)) d = Some x) ->
  merge_docs l d = d.
Proof.
  induction l as [|x l IH]; simpl; intros H; auto.
  rewrite set_present by (apply H; auto). apply IH; auto.
Qed.

Lemma values_entries l : PyDict.values (map entry l) = l.
Proof.
  unfold PyDict.values; rewrite map_map; simpl. apply map_id.
Qed.

Lemma defaults_dict c :
  NoDup (map doc_key (docs c)) ->
  merge_docs (filter (matches (client_query default)) (docs c)) []
  = map entry (filter (matches (client_query default)) (docs c)).
Proof.
  intros Hnd. rewrite merge_docs_fresh; [reflexivity|].
  simpl. apply cursor_tids_NoDup; exact Hnd.
Qed.

(** C8. For the default client, on a uniquely keyed collection,
    [list_templates] answers with the active default-layer templates sorted
    by name, and so does the handler that performs the merge step it
    skips: both end with the same answer in the same world. *)
Theorem list_templates_default_client c clk n :
  NoDup (map doc_key (docs c)) ->
  list_templates default (reliable c clk n)
  = (inr {| templates := defaults_only c; sync_timestamp := clk n |},
     reliable c clk (S n))
  /\ list_templates_unguarded default (reliable c clk n)
     = list_templates default (reliable c clk n).
Proof.
  intros Hnd.
  assert (H1 : list_templates default (reliable c clk n)
               = (inr {| templates := defaults_only c; sync_timestamp := clk n |},
                  reliable c clk (S n))).
  { rewrite list_templates_reliable. unfold resolved, defaults_only; simpl.
    rewrite defaults_dict, values_entries by assumption. reflexivity. }
  split; [exact H1|].
  rewrite H1.
  unfold list_templates_unguarded, try_except, bind.
  rewrite !find_reliable. fold (client_query default).
  rewrite (merge_docs_same
             (filter (matches (client_query default)) (docs c))
             (merge_docs (filter (matches (client_query default)) (docs c)) [])).
  - rewrite defaults_dict, values_entries by assumption. reflexivity.
  - intros x Hx. apply PyDictFacts.In_get.
    + apply merge_docs_NoDup; constructor.
    + rewrite defaults_dict by assumption.
      apply (in_map entry); exact Hx.
Qed.

(** ** Classification of failures on insert *)

(** C10. Whatever exception the [try] block of [create_template] raises,
    the handler reports status 409 when the lower-cased message contains
    "duplicate key" and status 503 otherwise; so the report is a conflict
    if and only if the message contains that text, whatever its case. *)
Theorem create_template_classifies_by_message t w e w' :
  create_template_try t w = (inl e, w') ->
  create_template t w
  = (inl (if PyStr.contains "duplicate key" (PyStr.lower (str e))
          then HTTPException 409 (conflict_detail t)
          else HTTPException 503 ("Template service unavailable: " ++ str e)),
     w')
  /\ ((exists detail,
         create_template t w = (inl (HTTPException 409 detail), w'))
      <-> PyStr.contains "duplicate key" (PyStr.lower (str e)) = true).
Proof.
  intros Hraise.
  assert (Hrun : create_template t w
    = (inl (if PyStr.contains "duplicate key" (PyStr.lower (str e))
            then HTTPException 409 (conflict_detail t)
            else HTTPException 503 ("Template service unavailable: " ++ str e)),
       w')).
  { unfold create_template, try_except; rewrite Hraise.
    unfold create_template_except, unavailable, raise.
    destruct (PyStr.contains "duplicate key" (PyStr.lower (str e)));
      reflexivity. }
  split; [exact Hrun|].
  rewrite Hrun.
  destruct (PyStr.contains "duplicate key" (PyStr.lower (str e))); split.
  - reflexivity.
  - intros _; eexists; reflexivity.
  - intros [detail H]; inversion H.
  - discriminate.
Qed.

(* ================================================================== *)
(** * The handlers on the clinic's collection *)

Module Scenarios.
Import Samples.

(** Clinic 7 lists its templates: its own [A1], the default [B2]; the
    withdrawn [C3] is not listed. *)
Example list_for_clinic :
  fst (list_templates "clinic-7" (reliable (store true) ticking 0))
  = inr {| templates := [soap_clinic true; handover];
           sync_timestamp := 1000 |}.
Proof. reflexivity. Qed.

Example list_for_clinic_override_off :
  fst (list_templates "clinic-7" (reliable (store false) ticking 0))
  = inr {| templates := [handover; soap]; sync_timestamp := 1000 |}.
Proof. reflexivity. Qed.

Example get_for_clinic :
  fst (get_template "A1" "clinic-7" (reliable (store true) ticking 0))
  = inr (soap_clinic true).
Proof. reflexivity. Qed.

Example get_withdrawn :
  fst (get_template "C3" "clinic-7" (reliable (store true) ticking 0))
  = inl (HTTPException 404 "Template 'C3' not found").
Proof. reflexivity. Qed.

Example get_while_unreachable :
  fst (get_template "A1" "default"
         {| coll := store true; net := [Some "No servers found yet"];
            clock := ticking; tick := 0 |})
  = inl (HTTPException 503
           "Template service unavailable: No servers found yet").
Proof. reflexivity. Qed.

Example str_of_http_exception :
  str (HTTPException 404 (not_found_detail "C3"))
  = "404: Template 'C3' not found".
Proof. reflexivity. Qed.

Example conflict_whatever_the_case :
  PyStr.contains "duplicate key" (PyStr.lower "E11000 Duplicate Key error")
  = true
  /\ PyStr.contains "duplicate key" (PyStr.lower "duplicate  key") = false.
Proof. split; reflexivity. Qed.

(** A replace keeps the [created_at] the insert stamped, whatever the
    body says. *)
Example insert_then_replace :
  exists w1 r w2,
    create_template soap (reliable empty ticking 0) = (inr soap, w1)
    /\ update_template "A1" handover w1 = (inr r, w2)
    /\ created_at r = 1000 /\ updated_at r = 1002
    /\ created_at handover = 7.
Proof. do 3 eexists; repeat split; reflexivity. Qed.

(** With the unique index in place a replace cannot take the key of
    another document. *)
Example replace_onto_taken_key :
  update_template "B2" soap (reliable (store true) ticking 0)
  = (inl (HTTPException 503
            ("Template service unavailable: " ++ duplicate_key_message)),
     reliable (store true) ticking 1).
Proof. reflexivity. Qed.

End Scenarios.

(* ================================================================== *)
(** * Instances *)

Import Samples.

Lemma get_template_override_then_default_witness :
  get_template "A1" "clinic-7" (reliable (store true) ticking 0)
  = (inr (soap_clinic true), reliable (store true) ticking 0)
  /\ get_template "A1" "clinic-7" (reliable (store false) ticking 0)
     = (inr soap, reliable (store false) ticking 0).
Proof.
  split.
  - apply (proj1 (get_template_override_then_default
                    "A1" "clinic-7" (store true) ticking 0
                    ltac:(discriminate)
                    ltac:(apply dup_keys_false; reflexivity))
             {| _id := 2%N; fields := soap_clinic true |}).
    + simpl; auto.
    + reflexivity.
    + reflexivity.
  - apply (proj2 (get_template_override_then_default
                    "A1" "clinic-7" (store false) ticking 0
                    ltac:(discriminate)
                    ltac:(apply dup_keys_false; reflexivity))
             {| _id := 1%N; fields := soap |}).
    + intros d [<- | [<- | [<- | [<- | []]]]]; simpl; intros H;
        (reflexivity || discriminate H).
    + simpl; auto.
    + reflexivity.
    + reflexivity.
Defined.

Lemma list_templates_resolution_witness :
  exists l,
    list_templates "clinic-7" (reliable (store true) ticking 0)
    = (inr {| templates := l; sync_timestamp := 1000 |},
       reliable (store true) ticking 1)
    /\ NoDup (map template_id l)
    /\ StronglySorted name_le l.
Proof.
  destruct (list_templates_resolution "clinic-7" (store true) ticking 0)
    as [l [Hrun [Hnd [_ [_ Hs]]]]].
  - apply dup_keys_false; reflexivity.
  - exists l; auto.
Defined.

Lemma get_template_absent_witness :
  get_template "C3" "clinic-7" (reliable (store true) ticking 0)
  = (inl (HTTPException 404 "Template 'C3' not found"),
     reliable (store true) ticking 0).
Proof.
  apply (get_template_absent "C3" "clinic-7" (store true) ticking 0).
  intros d [<- | [<- | [<- | [<- | []]]]]; simpl; intros H;
    (reflexivity || discriminate H).
Defined.





Lemma list_templates_default_client_witness :
  list_templates default (reliable (store true) ticking 0)
  = (inr {| templates := [handover; soap]; sync_timestamp := 1000 |},
     reliable (store true) ticking 1)
  /\ list_templates_unguarded default (reliable (store true) ticking 0)
     = list_templates default (reliable (store true) ticking 0).
Proof.
  apply (list_templates_default_client (store true) ticking 0).
  apply dup_keys_false; reflexivity.
Defined.

Lemma create_template_classifies_by_message_witness :
  create_template soap
    {| coll := store true; net := [None; Some "Connection refused"];
       clock := ticking; tick := 0 |}
  = (inl (HTTPException 503
            "Template service unavailable: Connection refused"),
     reliable (store true) ticking 0)
  /\ create_template soap
       {| coll := store true; net := [Some "Duplicate Key in cache"];
          clock := ticking; tick := 0 |}
     = (inl (HTTPException 409
               "Template 'A1' already exists for client 'default'"),
        reliable (store true) ticking 0).
Proof.
  split.
  - apply (create_template_classifies_by_message soap
             {| coll := store true; net := [None; Some "Connection refused"];
                clock := ticking; tick := 0 |}
             (PyMongoError "Connection refused")
             (reliable (store true) ticking 0)).
    reflexivity.
  - apply (create_template_classifies_by_message soap
             {| coll := store true; net := [Some "Duplicate Key in cache"];
                clock := ticking; tick := 0 |}
             (PyMongoError "Duplicate Key in cache")
             (reliable (store true) ticking 0)).
    reflexivity.
Defined.

(** C4. [create_template] answers with the record of the request, not with
    the stored one: inserted into an empty collection at clock readings
    1000 and 1001, a template whose body says [created_at = 5] is stored
    with the two readings and returned with 5. *)
Theorem create_template_returns_request_record :
  exists w',
    create_template soap (reliable empty ticking 0) = (inr soap, w')
    /\ map fields (docs (coll w')) = [stamped soap ticking 0]
    /\ created_at (stamped soap ticking 0) = 1000
    /\ updated_at (stamped soap ticking 0) = 1001
    /\ created_at soap = 5 /\ updated_at soap = 5
    /\ soap <> stamped soap ticking 0.
Proof.
  eexists; repeat split; try reflexivity. discriminate.
Qed.


(* ================================================================== *)
(** * Further properties of the handlers *)

(** ** Reasoning on the collection through a computation *)

Lemma ctriple_ret {A} (I : Collection -> Prop) (a : A) Q :
  (forall c, I c -> Q (inr a) c) -> ctriple I (ret a) Q.
Proof. intros H w Hw; apply H; exact Hw. Qed.

Lemma ctriple_raise {A} (I : Collection -> Prop) e
    (Q : exn + A -> Collection -> Prop) :
  (forall c, I c -> Q (inl e) c) -> ctriple I (raise e) Q.
Proof. intros H w Hw; apply H; exact Hw. Qed.

Lemma ctriple_bind {A B} I (m : M A) (k : A -> M B) R Q :
  ctriple I m R ->
  (forall e c, R (inl e) c -> Q (inl e) c) ->
  (forall a, ctriple (R (inr a)) (k a) Q) ->
  ctriple I (bind m k) Q.
Proof.
  intros Hm He Hk w Hw. specialize (Hm w Hw). unfold bind.
  destruct (m w) as [[e|a] w1]; simpl in *.
  - apply He; exact Hm.
  - apply Hk; exact Hm.
Qed.

Lemma ctriple_try {A} I (body : M A) (handler : exn -> M A) R Q :
  ctriple I body R ->
  (forall a c, R (inr a) c -> Q (inr a) c) ->
  (forall e, ctriple (R (inl e)) (handler e) Q) ->
  ctriple I (try_except body handler) Q.
Proof.
  intros Hm Ha Hh w Hw. specialize (Hm w Hw). unfold try_except.
  destruct (body w) as [[e|a] w1]; simpl in *.
  - apply Hh; exact Hm.
  - apply Ha; exact Hm.
Qed.

Lemma ctriple_conseq {A} (I I' : Collection -> Prop) (m : M A)
    (Q Q' : exn + A -> Collection -> Prop) :
  ctriple I' m Q' -> (forall c, I c -> I' c) ->
  (forall r c, Q' r c -> Q r c) -> ctriple I m Q.
Proof. intros H HI HQ w Hw; apply HQ, H, HI, Hw. Qed.

Lemma round_trip_coll w : coll (snd (round_trip w)) = coll w.
Proof. unfold round_trip; destruct (net w) as [|[msg|] rest]; reflexivity. Qed.

Lemma round_trip_error w e :
  fst (round_trip w) = inl e -> exists msg, e = PyMongoError msg.
Proof.
  unfold round_trip; destruct (net w) as [|[msg|] rest]; simpl;
    intros H; inversion H; eauto.
Qed.

Lemma ctriple_round_trip I :
  ctriple I round_trip
    (fun r c => I c /\ forall e, r = inl e -> exists msg, e = PyMongoError msg).
Proof.
  intros w Hw; rewrite round_trip_coll; split; auto.
  intros e; apply round_trip_error.
Qed.

Lemma ctriple_utcnow I :
  ctriple I utcnow (fun r c => I c /\ exists now, r = inr now).
Proof. intros w Hw; simpl; eauto. Qed.

(** A query reads the collection [c0] and leaves it as it is; it fails only
    with a driver error. *)
Lemma ctriple_find q c0 :
  ctriple (fun c => c = c0) (find q)
    (fun r c => c = c0
                /\ (forall l, r = inr l -> l = filter (matches q) (docs c0))
                /\ (forall e, r = inl e -> exists msg, e = PyMongoError msg)).
Proof.
  intros w Hw. unfold find, bind, get_coll, ret, round_trip.
  destruct (net w) as [|[msg|] rest]; simpl; subst c0;
    (split; [reflexivity | split; intros x H; inversion H; eauto]).
Qed.

Lemma ctriple_find_one q c0 :
  ctriple (fun c => c = c0) (find_one q)
    (fun r c => c = c0
                /\ (forall o, r = inr o -> o = List.find (matches q) (docs c0))
                /\ (forall e, r = inl e -> exists msg, e = PyMongoError msg)).
Proof.
  intros w Hw. unfold find_one, bind, get_coll, ret, round_trip.
  destruct (net w) as [|[msg|] rest]; simpl; subst c0;
    (split; [reflexivity | split; intros x H; inversion H; eauto]).
Qed.

(** ** The health route *)

(** X1. [check_mongo_connection] never raises: it answers [true] when the ping
    goes through and [false] when it fails; [templates_health] then answers
    ok or fails with status 503 and a fixed detail that does not quote the
    driver's message.  Neither touches the collection. *)
Theorem templates_health_reports_ping w :
  (exists b, fst (check_mongo_connection w) = inr b)
  /\ fst (templates_health w)
     = match hd None (net w) with
       | None => inr health_ok
       | Some _ => inl (HTTPException 503 "MongoDB is not reachable")
       end
  /\ coll (snd (templates_health w)) = coll w.
Proof.
  unfold templates_health, check_mongo_connection, try_except, bind, ret,
    raise, round_trip.
  destruct (net w) as [|[msg|] rest]; simpl; eauto.
Qed.

(** ** Resolution in any world *)

Lemma find_active_resolves tid cid x c d :
  List.find (matches (active_query tid x)) (docs c) = Some d ->
  x = cid \/ x = default ->
  resolves_from c tid cid (_doc_to_model d).
Proof.
  intros E Hx. apply find_some in E; destruct E as [Hin Hm].
  apply matches_active_query in Hm; destruct Hm as [Hk Ha].
  unfold doc_key, key in Hk; injection Hk as Ht Hc.
  exists d; unfold _doc_to_model; repeat split; auto.
  rewrite Hc; destruct Hx as [-> | ->]; auto.
Qed.

(** X2. Whatever the network does, [get_template] leaves the collection as it
    is; a record it returns is that of a stored, active document with the
    requested template id, of the requesting client or of the default
    layer; and it fails only with status 404 naming the requested id or
    with status 503. *)
Theorem get_template_answers_from_store tid cid w :
  coll (snd (get_template tid cid w)) = coll w
  /\ (forall t, fst (get_template tid cid w) = inr t ->
        resolves_from (coll w) tid cid t)
  /\ (forall e, fst (get_template tid cid w) = inl e ->
        e = HTTPException 404 (not_found_detail tid) \/ unavailable_error e).
Proof.
  unfold get_template, try_except, find_one, get_coll, ret, raise,
    unavailable, round_trip, unavailable_error, bind.
  fold (active_query tid cid) (active_query tid default).
  destruct w as [c nt clk tk];
    destruct (negb (String.eqb cid default));
    destruct nt as [|[m1|] [|[m2|] rest]]; simpl;
    repeat match goal with
           | |- context [List.find ?f ?l] =>
               let E := fresh "E" in destruct (List.find f l) eqn:E; simpl
           end;
    (split; [reflexivity|]);
    (split; [intros t H | intros e H]); inversion H; subst;
    try (eapply find_active_resolves; [eassumption | auto]);
    eauto.
Qed.

Lemma In_values_set {V} k (x v : V) d :
  In v (PyDict.values (PyDict.set k x d)) -> v = x \/ In v (PyDict.values d).
Proof.
  unfold PyDict.values; induction d as [|[k0 v0] d IH]; simpl.
  - intros [<- | []]; auto.
  - destruct (String.eqb k0 k); simpl.
    + intros [<- | H]; auto.
    + intros [<- | H]; auto. destruct (IH H); auto.
Qed.

Lemma In_values_merge l d v :
  In v (PyDict.values (merge_docs l d)) -> In v l \/ In v (PyDict.values d).
Proof.
  revert d; induction l as [|x l IH]; simpl; intros d H; auto.
  destruct (IH _ H) as [Hl | Hd]; auto.
  apply In_values_set in Hd; destruct Hd as [-> | Hd]; auto.
Qed.

Lemma resolved_from_store cid c d :
  In d (PyDict.values (resolved cid c)) ->
  In d (docs c) /\ is_active (fields d) = true
  /\ (client_id (fields d) = cid \/ client_id (fields d) = default).
Proof.
  assert (Hcur : forall x, In d (filter (matches (client_query x)) (docs c)) ->
            In d (docs c) /\ is_active (fields d) = true
            /\ client_id (fields d) = x).
  { intros x H; apply filter_In in H; destruct H as [Hin Hm].
    apply matches_client_query in Hm; tauto. }
  unfold resolved; destruct (negb (String.eqb cid default)); intros H.
  - apply In_values_merge in H; destruct H as [H | H].
    + apply Hcur in H; tauto.
    + apply In_values_merge in H; destruct H as [H | []].
      apply Hcur in H; tauto.
  - apply In_values_merge in H; destruct H as [H | []].
    apply Hcur in H; tauto.
Qed.

Lemma list_templates_success cid w r :
  fst (list_templates cid w) = inr r ->
  templates r
  = sort_by_name (map _doc_to_model (PyDict.values (resolved cid (coll w)))).
Proof.
  unfold list_templates, try_except, find, get_coll, ret, raise,
    unavailable, round_trip, utcnow, resolved, bind.
  destruct w as [c nt clk tk];
    destruct (negb (String.eqb cid default));
    destruct nt as [|[m1|] [|[m2|] rest]]; simpl;
    intros H; inversion H; reflexivity.
Qed.

Lemma list_templates_effect cid w :
  coll (snd (list_templates cid w)) = coll w
  /\ (forall e, fst (list_templates cid w) = inl e -> unavailable_error e).
Proof.
  unfold list_templates, try_except, find, get_coll, ret, raise,
    unavailable, round_trip, utcnow, unavailable_error, bind.
  destruct w as [c nt clk tk];
    destruct (negb (String.eqb cid default));
    destruct nt as [|[m1|] [|[m2|] rest]]; simpl;
    (split; [reflexivity | intros e H; inversion H; eauto]).
Qed.

(** X3. Whatever the network does, and whether or not the keys of the stored
    documents are unique, [list_templates] leaves the collection as it is
    and fails only with status 503; the list it returns has no template id
    twice, is in ascending order of name, and holds only records of stored,
    active documents of the requesting client or of the default layer. *)
Theorem list_templates_answers_from_store cid w :
  coll (snd (list_templates cid w)) = coll w
  /\ (forall e, fst (list_templates cid w) = inl e -> unavailable_error e)
  /\ (forall r, fst (list_templates cid w) = inr r ->
        NoDup (map template_id (templates r))
        /\ StronglySorted name_le (templates r)
        /\ forall t, In t (templates r) ->
             resolves_from (coll w) (template_id t) cid t).
Proof.
  destruct (list_templates_effect cid w) as [Hc He].
  split; [exact Hc | split; [exact He|]].
  intros r Hr. rewrite (list_templates_success cid w r Hr).
  split; [|split].
  - eapply Permutation_NoDup.
    + apply Permutation_map, sort_by_name_perm.
    + rewrite keys_values_keyed by apply resolved_keyed. apply resolved_NoDup.
  - apply sort_by_name_strongly_sorted.
  - intros t Hin.
    apply (Permutation_in _ (Permutation_sym (sort_by_name_perm _))) in Hin.
    apply in_map_iff in Hin; destruct Hin as [d [<- Hd]].
    apply resolved_from_store in Hd; destruct Hd as [Hin [Ha Hcl]].
    exists d; unfold _doc_to_model; auto.
Qed.

(** ** Failures of the store during resolution *)

(** X4. When the query for the client's own documents fails, after the query
    for the defaults went through, [list_templates] fails with status 503
    and the driver's message: it does not answer with the defaults alone.
    It stops there, without reading the clock. *)
Theorem list_templates_fails_with_override_query cid w msg rest :
  cid <> default ->
  net w = None :: Some msg :: rest ->
  list_templates cid w
  = (inl (HTTPException 503 ("Template service unavailable: " ++ msg)),
     {| coll := coll w; net := rest; clock := clock w; tick := tick w |}).
Proof.
  intros Hcid Hnet.
  apply String.eqb_neq in Hcid.
  unfold list_templates, try_except, find, get_coll, ret, raise,
    unavailable, round_trip, bind.
  rewrite Hcid, Hnet; simpl. reflexivity.
Qed.

(** X5. When its first lookup fails, [get_template] fails with status 503 and
    the driver's message after that one round trip: for a client other than
    "default" a failed lookup of the override is not followed by a lookup of
    the default. *)
Theorem get_template_fails_with_first_lookup tid cid w msg rest :
  net w = Some msg :: rest ->
  get_template tid cid w
  = (inl (HTTPException 503 ("Template service unavailable: " ++ msg)),
     {| coll := coll w; net := rest; clock := clock w; tick := tick w |}).
Proof.
  intros Hnet.
  unfold get_template, try_except, find_one, get_coll, ret, raise,
    unavailable, round_trip, bind.
  destruct (negb (String.eqb cid default)); simpl; rewrite Hnet; reflexivity.
Qed.

(** ** What the writing handlers keep *)

Lemma NoDup_keys_replace before d r after :
  NoDup (map doc_key (before ++ d :: after)) ->
  has_key (doc_key r) (before ++ after) = false ->
  NoDup (map doc_key (before ++ r :: after)).
Proof.
  intros Hnd Hk. rewrite map_app in *; simpl in *.
  apply NoDup_remove_1 in Hnd.
  eapply Permutation_NoDup; [apply Permutation_middle|].
  constructor; auto.
  rewrite <- map_app. intros Hin.
  apply in_map_iff in Hin; destruct Hin as [x [E Hx]].
  rewrite has_key_false in Hk; exact (Hk x Hx E).
Qed.

Lemma ctriple_create_unique_index :
  ctriple uniquely_keyed create_unique_index
    (fun r c => uniquely_keyed c
                /\ (forall u, r = inr u -> unique_index c = true)).
Proof.
  intros w [Hnd Hix].
  unfold create_unique_index, get_coll, put_coll, set_coll, ret, raise,
    round_trip, bind.
  destruct w as [[ds ix] nt clk tk]; simpl in *.
  destruct nt as [|[msg|] rest]; simpl;
    destruct ix; simpl; try destruct (dup_keys ds); simpl;
    (split; [split; simpl; auto | intros u H; inversion H; auto]).
Qed.

Lemma ctriple_insert_one doc :
  ctriple (fun c => uniquely_keyed c /\ unique_index c = true) (insert_one doc)
    (fun _ c => uniquely_keyed c).
Proof.
  intros w [[Hnd Hix] Htrue].
  unfold insert_one, get_coll, put_coll, set_coll, ret, raise, round_trip, bind.
  destruct w as [[ds ix] nt clk tk]; simpl in *; subst ix.
  destruct nt as [|[msg|] rest]; simpl;
    try (split; simpl; auto; fail);
    destruct (has_key (key doc) ds) eqn:Hk; simpl;
    (split; simpl; auto); apply NoDup_keys_snoc; auto.
Qed.

Lemma ctriple_find_one_and_update q update_data :
  ctriple uniquely_keyed (find_one_and_update q update_data)
    (fun _ c => uniquely_keyed c).
Proof.
  intros w [Hnd Hix].
  unfold find_one_and_update, get_coll, put_coll, set_coll, ret, raise,
    round_trip, bind.
  destruct w as [[ds ix] nt clk tk]; simpl in *.
  assert (Hgo :
    uniquely_keyed
      (coll (snd (match split_first q ds with
                  | Some (before, d, after) =>
                      if ix && has_key (doc_key (dollar_set update_data d))
                                 (before ++ after)
                      then (inl DuplicateKeyError,
                            {| coll := {| docs := ds; unique_index := ix |};
                               net := nt; clock := clk; tick := tk |})
                      else (inr (Some (dollar_set update_data d)),
                            {| coll := {| docs := before
                                            ++ dollar_set update_data d :: after;
                                          unique_index := ix |};
                               net := nt; clock := clk; tick := tk |})
                  | None => (@inr exn _ None,
                             {| coll := {| docs := ds; unique_index := ix |};
                                net := nt; clock := clk; tick := tk |})
                  end)))).
  { destruct (split_first q ds) as [[[before d] after]|] eqn:E;
      [|split; simpl; auto].
    destruct (split_first_Some _ _ _ _ _ E) as [Hds _].
    destruct Hix as [-> | ->]; [|destruct before; discriminate].
    simpl.
    destruct (has_key (doc_key (dollar_set update_data d)) (before ++ after))
      eqn:Hk; simpl; split; simpl; auto.
    subst ds. eapply NoDup_keys_replace; eauto. }
  destruct nt as [|[msg|] rest]; simpl.
  - destruct (split_first q ds) as [[[before d] after]|]; simpl in *.
    + destruct (ix && has_key (doc_key (dollar_set update_data d))
                        (before ++ after)); exact Hgo.
    + exact Hgo.
  - split; simpl; auto.
  - destruct (split_first q ds) as [[[before d] after]|]; simpl in *.
    + destruct (ix && has_key (doc_key (dollar_set update_data d))
                        (before ++ after)); exact Hgo.
    + exact Hgo.
Qed.

Lemma ctriple_keep_round_trip (I : Collection -> Prop) :
  ctriple I round_trip (fun _ c => I c).
Proof. intros w Hw; rewrite round_trip_coll; exact Hw. Qed.

Lemma ctriple_keep_utcnow (I : Collection -> Prop) :
  ctriple I utcnow (fun _ c => I c).
Proof. intros w Hw; exact Hw. Qed.

Lemma ctriple_ensure_indexes :
  ctriple uniquely_keyed _ensure_indexes
    (fun r c => uniquely_keyed c
                /\ (forall u, r = inr u -> unique_index c = true)).
Proof.
  unfold _ensure_indexes, create_index.
  apply ctriple_bind with
    (R := fun r c => uniquely_keyed c
                     /\ (forall u : unit, r = inr u -> unique_index c = true)).
  - apply ctriple_create_unique_index.
  - intros e c [H _]; split; [exact H | discriminate].
  - intros [].
    apply ctriple_conseq with (I' := indexed_keys)
                              (Q' := fun _ c => indexed_keys c).
    + apply ctriple_bind with (R := fun _ c => indexed_keys c).
      * apply ctriple_keep_round_trip.
      * auto.
      * intros []; apply ctriple_keep_round_trip.
    + intros c [H1 H2]; split; [exact H1 | exact (H2 tt eq_refl)].
    + intros r c [H1 H2]; split; auto.
Qed.

Lemma ctriple_create_template t :
  ctriple uniquely_keyed (create_template t) (fun _ c => uniquely_keyed c).
Proof.
  unfold create_template, create_template_try.
  apply ctriple_try with (R := fun _ c => uniquely_keyed c); [|auto|].
  - apply ctriple_bind with
      (R := fun r c => uniquely_keyed c
                       /\ (forall u : unit, r = inr u -> unique_index c = true)).
    + apply ctriple_ensure_indexes.
    + intros e c [H _]; exact H.
    + intros [].
      apply ctriple_conseq with (I' := indexed_keys)
                                (Q' := fun _ c => uniquely_keyed c).
      * apply ctriple_bind with (R := fun _ c => indexed_keys c);
          [apply ctriple_keep_utcnow | intros e c [H _]; exact H |].
        intros now1.
        apply ctriple_bind with (R := fun _ c => indexed_keys c);
          [apply ctriple_keep_utcnow | intros e c [H _]; exact H |].
        intros now2.
        apply ctriple_bind with (R := fun _ c => uniquely_keyed c);
          [apply ctriple_insert_one | auto |].
        intros oid; apply ctriple_ret; auto.
      * intros c [H1 H2]; split; [exact H1 | exact (H2 tt eq_refl)].
      * auto.
  - intros e; unfold create_template_except, unavailable.
    destruct (PyStr.contains "duplicate key" (PyStr.lower (str e)));
      apply ctriple_raise; auto.
Qed.

Lemma ctriple_update_template tid t :
  ctriple uniquely_keyed (update_template tid t) (fun _ c => uniquely_keyed c).
Proof.
  unfold update_template.
  apply ctriple_try with (R := fun _ c => uniquely_keyed c); [|auto|].
  - apply ctriple_bind with (R := fun _ c => uniquely_keyed c);
      [apply ctriple_keep_utcnow | auto |].
    intros now.
    apply ctriple_bind with (R := fun _ c => uniquely_keyed c);
      [apply ctriple_find_one_and_update | auto |].
    intros [r|]; [apply ctriple_ret | apply ctriple_raise]; auto.
  - intros [sc dt | msg]; apply ctriple_raise; auto.
Qed.

(** X6. Whatever the network does, whether they succeed or fail, [create_template]
    and [update_template] take a collection in which no key is on two
    documents and the unique index is in place as soon as a document is
    stored to a collection of the same kind; a collection that was only
    ever written through them, starting empty, is uniquely keyed. *)
Theorem writes_keep_unique_keys t tid w :
  uniquely_keyed (coll w) ->
  uniquely_keyed (coll (snd (create_template t w)))
  /\ uniquely_keyed (coll (snd (update_template tid t w))).
Proof.
  intros H; split.
  - exact (ctriple_create_template t w H).
  - exact (ctriple_update_template tid t w H).
Qed.

(** ** What the writing handlers touch *)






(** ** Lists and lookups agree *)

Lemma get_template_from_resolved tid cid c clk n :
  NoDup (map doc_key (docs c)) ->
  fst (get_template tid cid (reliable c clk n))
  = match PyDict.get tid (resolved cid c) with
    | Some d => inr (_doc_to_model d)
    | None => inl (HTTPException 404 (not_found_detail tid))
    end.
Proof.
  intros Hnd. rewrite get_template_reliable, resolved_get by assumption.
  simpl.
  destruct (if negb (String.eqb cid default)
            then List.find (matches (active_query tid cid)) (docs c)
            else None); [reflexivity|].
  destruct (List.find (matches (active_query tid default)) (docs c));
    reflexivity.
Qed.

(** X8. On a uniquely keyed collection the list and the lookup resolve alike: a
    record is in the list [list_templates] returns to a client exactly when
    [get_template], asked by that client for the record's template id,
    returns that record. *)
Theorem list_and_get_agree cid c clk n m :
  NoDup (map doc_key (docs c)) ->
  exists r,
    list_templates cid (reliable c clk n) = (inr r, reliable c clk (S n))
    /\ forall t,
         In t (templates r)
         <-> fst (get_template (template_id t) cid (reliable c clk m)) = inr t.
Proof.
  intros Hnd. eexists; split; [apply list_templates_reliable|].
  intros t; simpl. rewrite get_template_from_resolved by assumption. split.
  - intros Hin.
    apply (Permutation_in _ (Permutation_sym (sort_by_name_perm _))) in Hin.
    apply in_map_iff in Hin; destruct Hin as [d [<- Hd]].
    apply In_values_get in Hd;
      [|apply resolved_keyed | apply resolved_NoDup].
    unfold _doc_to_model at 1. rewrite Hd; reflexivity.
  - destruct (PyDict.get (template_id t) (resolved cid c)) as [d|] eqn:E;
      [|discriminate].
    intros H; inversion H; subst t.
    apply (Permutation_in _ (sort_by_name_perm _)).
    apply in_map. apply In_values_get;
      [apply resolved_keyed | apply resolved_NoDup | exact E].
Qed.

(** ** Writes followed by lookups *)





(** ** Duplicate keys outside an insert *)


(** X13. On a collection that holds a key twice and has no unique index yet,
    every [create_template] is refused with status 409, whatever pair the
    template has: building the index fails with a duplicate-key message,
    which the handler takes for a conflict of the insert.  Nothing is
    written and the clock is not read. *)
Theorem create_template_on_duplicated_keys t c clk n :
  unique_index c = false ->
  dup_keys (docs c) = true ->
  create_template t (reliable c clk n)
  = (inl (HTTPException 409 (conflict_detail t)), reliable c clk n).
Proof.
  intros Hix Hdup.
  unfold create_template, try_except, create_template_try,
    create_template_except, _ensure_indexes, create_unique_index, get_coll,
    raise, round_trip, reliable, bind.
  simpl. rewrite Hix, Hdup. simpl. destruct c; simpl in *; reflexivity.
Qed.

(* ================================================================== *)
(** * Releases *)

(** ** Comparing versions *)

Lemma tuple_gt_irrefl a : PyParse.tuple_gt a a = false.
Proof.
  induction a as [|x a IH]; simpl; auto. rewrite Z.eqb_refl; exact IH.
Qed.

Lemma tuple_gt_asym a b :
  PyParse.tuple_gt a b = true -> PyParse.tuple_gt b a = false.
Proof.
  revert b; induction a as [|x a IH]; intros [|y b]; simpl; auto;
    try discriminate.
  rewrite (Z.eqb_sym y x).
  destruct (Z.eqb_spec x y) as [-> | Hne]; [apply IH|].
  intros H; apply Z.ltb_lt in H. apply Z.ltb_ge; lia.
Qed.

Lemma tuple_gt_trans a b c :
  PyParse.tuple_gt a b = true -> PyParse.tuple_gt b c = true ->
  PyParse.tuple_gt a c = true.
Proof.
  revert b c; induction a as [|x a IH]; intros [|y b] [|z c]; simpl; auto;
    try discriminate.
  destruct (Z.eqb_spec x y) as [-> | Hxy].
  - destruct (Z.eqb_spec y z) as [-> | Hyz]; [apply IH | auto].
  - intros Hx. apply Z.ltb_lt in Hx.
    destruct (Z.eqb_spec y z) as [-> | Hyz].
    + intros _. destruct (Z.eqb_spec x z); [lia | apply Z.ltb_lt; lia].
    + intros Hy. apply Z.ltb_lt in Hy.
      destruct (Z.eqb_spec x z); [lia | apply Z.ltb_lt; lia].
Qed.

Lemma tuple_gt_total a b :
  PyParse.tuple_gt a b = false -> PyParse.tuple_gt b a = false -> a = b.
Proof.
  revert b; induction a as [|x a IH]; intros [|y b]; simpl; auto;
    try discriminate.
  rewrite (Z.eqb_sym y x).
  destruct (Z.eqb_spec x y) as [-> | Hne].
  - intros H1 H2; f_equal; apply IH; assumption.
  - intros H1 H2. apply Z.ltb_ge in H1, H2. lia.
Qed.

(** X14. No version is newer than itself, whether it parses or not. *)
Theorem is_newer_irreflexive v : Releases._is_newer v v = false.
Proof.
  unfold Releases._is_newer.
  destruct (Releases.parse v) as [l|].
  - apply tuple_gt_irrefl.
  - rewrite String.eqb_refl; reflexivity.
Qed.

(** X15. Each of two versions is reported newer than the other exactly when
    they are different strings and one of them does not parse as
    dot-separated integers: the fallback compares the strings for
    inequality, which has no direction. *)
Theorem is_newer_both_ways a b :
  Releases._is_newer a b = true /\ Releases._is_newer b a = true
  <-> a <> b /\ (Releases.parse a = None \/ Releases.parse b = None).
Proof.
  unfold Releases._is_newer.
  rewrite (String.eqb_sym b a).
  destruct (Releases.parse a) as [ta|], (Releases.parse b) as [tb|];
    rewrite ?negb_true_iff, ?String.eqb_neq; split.
  - intros [H1 H2]. apply tuple_gt_asym in H1. congruence.
  - intros [_ [H | H]]; discriminate.
  - intros [H _]; auto.
  - intros [H _]; auto.
  - intros [H _]; auto.
  - intros [H _]; auto.
  - intros [H _]; auto.
  - intros [H _]; auto.
Qed.

(** X16. On versions that parse, the comparison is transitive. *)
Theorem is_newer_transitive a b c ta tb tc :
  Releases.parse a = Some ta -> Releases.parse b = Some tb ->
  Releases.parse c = Some tc ->
  Releases._is_newer a b = true -> Releases._is_newer b c = true ->
  Releases._is_newer a c = true.
Proof.
  unfold Releases._is_newer. intros -> -> ->. apply tuple_gt_trans.
Qed.

(** X17. Of two versions that parse, neither is newer than the other exactly
    when they parse to the same integers (as "1.0" and " 1.00" do, though
    the strings differ); otherwise exactly one is newer. *)
Theorem is_newer_trichotomy a b ta tb :
  Releases.parse a = Some ta -> Releases.parse b = Some tb ->
  (Releases._is_newer a b = false /\ Releases._is_newer b a = false
   <-> ta = tb)
  /\ (Releases._is_newer a b = true -> Releases._is_newer b a = false).
Proof.
  unfold Releases._is_newer. intros -> ->. split; [split|].
  - intros [H1 H2]; apply tuple_gt_total; assumption.
  - intros ->; split; apply tuple_gt_irrefl.
  - apply tuple_gt_asym.
Qed.

(** The integers are compared as numbers and a longer version wins over its
    prefix; a version with a suffix falls back to string inequality. *)
Example is_newer_examples :
  Releases._is_newer "1.10.0" "1.9.9" = true
  /\ Releases._is_newer "1.9" "1.10" = false
  /\ Releases._is_newer "1.0" "1" = true
  /\ Releases._is_newer "1.0" " 1.00" = false
  /\ Releases._is_newer "v1" "v2" = true
  /\ Releases._is_newer "v2" "v1" = true
  /\ Releases._is_newer "1.0-beta" "1.0" = true.
Proof. repeat split; reflexivity. Qed.

(** ** The latest release *)

Lemma newest_In ds m :
  Releases.newest ds = Some m ->
  In m ds
  /\ forall d, In d ds ->
       Releases.release_date (Releases.fields d)
       <= Releases.release_date (Releases.fields m).
Proof.
  revert m; induction ds as [|x ds IH]; simpl; intros m; [discriminate|].
  destruct (Releases.newest ds) as [m0|] eqn:E.
  - destruct (IH m0 eq_refl) as [Hin Hmax].
    destruct (Z.leb_spec (Releases.release_date (Releases.fields m0))
                (Releases.release_date (Releases.fields x))) as [Hle | Hlt];
      intros Heq; inversion Heq; subst; (split; [simpl; auto|]);
      intros d [<- | Hd]; try lia; specialize (Hmax d Hd); lia.
  - intros Heq; inversion Heq; subst. split; [simpl; auto|].
    assert (ds = []) as ->.
    { destruct ds as [|y ds]; auto. simpl in E.
      destruct (Releases.newest ds);
        [destruct (Releases.release_date (Releases.fields d)
                   <=? Releases.release_date (Releases.fields y))|];
        discriminate. }
    intros d [<- | []]; lia.
Qed.

Lemma newest_None ds : Releases.newest ds = None -> ds = [].
Proof.
  destruct ds as [|x ds]; simpl; auto.
  destruct (Releases.newest ds); [destruct (_ <=? _)|]; discriminate.
Qed.

Lemma get_latest_release_run cv w :
  Releases.coll (snd (Releases.get_latest_release cv w)) = Releases.coll w
  /\ fst (Releases.get_latest_release cv w)
     = match hd None (Releases.net w) with
       | Some msg =>
           inl (HTTPException 503 ("Release service unavailable: " ++ msg))
       | None =>
           inr (latest_response cv
                  (Releases.newest
                     (filter Releases.marked_latest
                        (Releases.docs (Releases.coll w)))))
       end.
Proof.
  unfold Releases.get_latest_release, Releases.try_except,
    Releases.find_one_latest, Releases.get_coll, Releases.ret,
    Releases.release_unavailable, Releases.raise, Releases.round_trip,
    Releases.bind, latest_response, Releases._doc_to_model.
  destruct w as [c nt clk tk]; simpl.
  destruct nt as [|[msg|] rest]; simpl; auto;
    destruct (Releases.newest (filter Releases.marked_latest (Releases.docs c)));
    simpl; auto.
Qed.

(** X18. Whatever the network does, [get_latest_release] leaves the collection
    as it is and fails only with status 503.  When no stored release is
    marked latest it answers [available = false] and echoes the client's
    version, or "unknown" when none (or an empty one) was sent; otherwise
    it describes a release marked latest whose [release_date] no other
    marked release exceeds. *)
Theorem get_latest_release_answer cv w :
  Releases.coll (snd (Releases.get_latest_release cv w)) = Releases.coll w
  /\ (forall e, fst (Releases.get_latest_release cv w) = inl e ->
        exists msg,
          e = HTTPException 503 ("Release service unavailable: " ++ msg))
  /\ (forall resp, fst (Releases.get_latest_release cv w) = inr resp ->
        (Releases.available resp = false
         /\ Releases.latest_version resp = Releases.or_unknown cv
         /\ Releases.latest_release_date resp = None
         /\ forall d, In d (Releases.docs (Releases.coll w)) ->
              Releases.is_latest (Releases.fields d) = false)
        \/ exists m,
             In m (Releases.docs (Releases.coll w))
             /\ Releases.is_latest (Releases.fields m) = true
             /\ Releases.latest_version resp
                = Releases.version (Releases.fields m)
             /\ Releases.latest_release_date resp
                = Some (Releases.release_date (Releases.fields m))
             /\ forall d, In d (Releases.docs (Releases.coll w)) ->
                  Releases.is_latest (Releases.fields d) = true ->
                  Releases.release_date (Releases.fields d)
                  <= Releases.release_date (Releases.fields m)).
Proof.
  destruct (get_latest_release_run cv w) as [Hc Hr].
  split; [exact Hc|]. rewrite Hr.
  destruct (hd None (Releases.net w)) as [msg|].
  - split; [intros e H; inversion H; eexists; reflexivity | discriminate].
  - split; [discriminate|]. intros resp H; inversion H; subst resp; clear H.
    destruct (Releases.newest
                (filter Releases.marked_latest
                   (Releases.docs (Releases.coll w)))) as [m|] eqn:E.
    + right. apply newest_In in E; destruct E as [Hin Hmax].
      apply filter_In in Hin; destruct Hin as [Hin Hm].
      exists m; simpl; repeat split; auto.
      intros d Hd Hl. apply Hmax. apply filter_In; auto.
    + left. apply newest_None in E. simpl; repeat split; auto.
      intros d Hd. destruct (Releases.is_latest (Releases.fields d)) eqn:Hl; auto.
      assert (In d (filter Releases.marked_latest
                      (Releases.docs (Releases.coll w))))
        by (apply filter_In; auto).
      rewrite E in H; destruct H.
Qed.

Lemma is_newer_self v : Releases._is_newer v v = false.
Proof.
  unfold Releases._is_newer.
  destruct (Releases.parse v); [apply tuple_gt_irrefl|].
  rewrite String.eqb_refl; reflexivity.
Qed.

(** X19. [get_latest_release] announces an update only to a client that sent a
    version, not empty, other than the latest one, than which [_is_newer]
    finds the latest newer. *)
Theorem update_announced_only_against_a_version cv w resp :
  fst (Releases.get_latest_release cv w) = inr resp ->
  Releases.available resp = true ->
  exists v,
    cv = Some v /\ v <> EmptyString
    /\ v <> Releases.latest_version resp
    /\ Releases._is_newer (Releases.latest_version resp) v = true.
Proof.
  destruct (get_latest_release_run cv w) as [_ Hr]. rewrite Hr.
  destruct (hd None (Releases.net w)); [discriminate|].
  intros H; inversion H; subst resp; clear H.
  destruct (Releases.newest _) as [m|]; simpl; [|discriminate].
  destruct cv as [v|]; [|discriminate].
  destruct v as [|ch v]; simpl; [discriminate|].
  intros Hnew. exists (String ch v). repeat split; auto; [discriminate|].
  intros Heq. rewrite Heq, is_newer_self in Hnew; discriminate.
Qed.

(** ** Publishing a release *)

Lemma has_version_unmark v ds :
  Releases.has_version v (map Releases.unmark ds) = Releases.has_version v ds.
Proof.
  induction ds as [|d ds IH]; simpl; auto. rewrite IH. f_equal.
  unfold Releases.unmark. destruct (Releases.is_latest (Releases.fields d));
    reflexivity.
Qed.

Lemma none_marked_after_unmark ds :
  filter Releases.marked_latest (map Releases.unmark ds) = [].
Proof.
  induction ds as [|d ds IH]; simpl; auto.
  unfold Releases.unmark at 1, Releases.marked_latest at 1.
  destruct (Releases.is_latest (Releases.fields d)) eqn:E; simpl;
    [|rewrite E]; exact IH.
Qed.

Lemma versions_after_unmark ds :
  map (fun d => Releases.version (Releases.fields d)) (map Releases.unmark ds)
  = map (fun d => Releases.version (Releases.fields d)) ds.
Proof.
  induction ds as [|d ds IH]; simpl; auto. rewrite IH. f_equal.
  unfold Releases.unmark. destruct (Releases.is_latest (Releases.fields d));
    reflexivity.
Qed.

Lemma create_release_reliable r c clk n :
  Releases.dup_versions (Releases.docs c) = false ->
  Releases.create_release r (Releases.reliable c clk n)
  = if Releases.has_version (Releases.version r) (Releases.docs c)
    then (inl (HTTPException 409 (Releases.exists_detail r)),
          Releases.reliable
            {| Releases.docs := shelf r (Releases.docs c);
               Releases.unique_version := true |} clk (S n))
    else (inr r,
          Releases.reliable
            {| Releases.docs :=
                 shelf r (Releases.docs c)
                 ++ [published r (Releases.docs c) (clk n)];
               Releases.unique_version := true |} clk (S n)).
Proof.
  intros Hnd.
  unfold Releases.create_release, Releases.try_except,
    Releases._ensure_indexes, Releases.create_unique_index,
    Releases.create_index, Releases.update_many_unmark, Releases.insert_one,
    Releases.get_coll, Releases.put_coll, Releases.ret, Releases.raise,
    Releases.release_unavailable, Releases.utcnow, Releases.round_trip,
    Releases.reliable, Releases.bind, published, shelf.
  destruct c as [ds ix]; simpl in *.
  destruct ix; simpl; rewrite ?Hnd; simpl;
    destruct (Releases.is_latest r); simpl;
    rewrite ?has_version_unmark;
    change (Releases.version (Releases.set_created_at (clk n) r))
      with (Releases.version r);
    destruct (Releases.has_version (Releases.version r) ds); reflexivity.
Qed.

Lemma filter_marked_app ds d :
  filter Releases.marked_latest (ds ++ [d])
  = filter Releases.marked_latest ds
    ++ (if Releases.is_latest (Releases.fields d) then [d] else []).
Proof. rewrite filter_app; reflexivity. Qed.


(** X21. Publishing again, marked latest, a version the collection (with unique
    versions) already holds fails with status 409, but only after every
    stored release has been unmarked: no release is left marked latest, none
    has been removed, and [get_latest_release] then answers that no update
    is available. *)
Theorem create_release_duplicate_unmarks_all r c clk n cv :
  Releases.dup_versions (Releases.docs c) = false ->
  Releases.has_version (Releases.version r) (Releases.docs c) = true ->
  Releases.is_latest r = true ->
  exists w1 resp,
    Releases.create_release r (Releases.reliable c clk n)
    = (inl (HTTPException 409
              ("Release " ++ Releases.version r ++ " already exists")), w1)
    /\ (forall d, In d (Releases.docs (Releases.coll w1)) ->
          Releases.is_latest (Releases.fields d) = false)
    /\ map (fun d => Releases.version (Releases.fields d))
           (Releases.docs (Releases.coll w1))
       = map (fun d => Releases.version (Releases.fields d)) (Releases.docs c)
    /\ fst (Releases.get_latest_release cv w1) = inr resp
    /\ Releases.available resp = false
    /\ Releases.latest_version resp = Releases.or_unknown cv.
Proof.
  intros Hnd Hdup Hlatest.
  rewrite create_release_reliable, Hdup by assumption.
  eexists; eexists. split; [reflexivity|].
  unfold shelf; rewrite Hlatest; simpl.
  split; [|split; [apply versions_after_unmark|]].
  - intros d Hd.
    destruct (Releases.is_latest (Releases.fields d)) eqn:E; auto.
    assert (In d (filter Releases.marked_latest
                    (map Releases.unmark (Releases.docs c))))
      by (apply filter_In; auto).
    rewrite none_marked_after_unmark in H; destruct H.
  - destruct (get_latest_release_run cv
                (Releases.reliable
                   {| Releases.docs := map Releases.unmark (Releases.docs c);
                      Releases.unique_version := true |} clk (S n)))
      as [_ Hr].
    rewrite Hr. simpl. rewrite none_marked_after_unmark. simpl.
    repeat split; reflexivity.
Qed.

(** X22. A release that is not marked latest, of a version the collection (with
    unique versions) does not hold, is inserted without touching the stored
    releases: [get_latest_release] answers as it did before. *)
Theorem create_release_unmarked_keeps_latest r c clk n m cv :
  Releases.dup_versions (Releases.docs c) = false ->
  Releases.has_version (Releases.version r) (Releases.docs c) = false ->
  Releases.is_latest r = false ->
  exists w1 d,
    Releases.create_release r (Releases.reliable c clk n) = (inr r, w1)
    /\ Releases.docs (Releases.coll w1) = Releases.docs c ++ [d]
    /\ fst (Releases.get_latest_release cv w1)
       = fst (Releases.get_latest_release cv (Releases.reliable c clk m)).
Proof.
  intros Hnd Habs Hnot.
  rewrite create_release_reliable, Habs by assumption.
  eexists; exists (published r (Releases.docs c) (clk n)).
  split; [reflexivity|].
  unfold shelf at 1 2; rewrite Hnot. split; [reflexivity|].
  destruct (get_latest_release_run cv
              (Releases.reliable
                 {| Releases.docs :=
                      Releases.docs c ++ [published r (Releases.docs c) (clk n)];
                    Releases.unique_version := true |} clk (S n)))
    as [_ Hr1].
  destruct (get_latest_release_run cv (Releases.reliable c clk m)) as [_ Hr2].
  rewrite Hr1, Hr2. simpl.
  rewrite filter_marked_app. simpl. rewrite Hnot, app_nil_r. reflexivity.
Qed.

(* ================================================================== *)
(** * Further instances *)

Module ReleaseScenarios.
Import ReleaseSamples.

Example first_check_for_updates :
  fst (Releases.get_latest_release (Some "0.2.0")
         (Releases.reliable catalog ticking 0))
  = inr {| Releases.available := true;
           Releases.latest_version := "0.2.1";
           Releases.latest_release_date := Some 100;
           Releases.latest_download_url := Some "https://example.org/0.2.1";
           Releases.latest_release_notes := Some "Initial release";
           Releases.latest_whats_new :=
             Some ["Templates sync from the server"] |}.
Proof. reflexivity. Qed.

Example check_without_version :
  fst (Releases.get_latest_release None
         (Releases.reliable
            {| Releases.docs := []; Releases.unique_version := false |}
            ticking 0))
  = inr {| Releases.available := false;
           Releases.latest_version := "unknown";
           Releases.latest_release_date := None;
           Releases.latest_download_url := None;
           Releases.latest_release_notes := None;
           Releases.latest_whats_new := None |}.
Proof. reflexivity. Qed.

End ReleaseScenarios.

Lemma list_templates_fails_with_override_query_witness :
  list_templates "clinic-7"
    {| coll := store true; net := [None; Some "socket closed"];
       clock := ticking; tick := 0 |}
  = (inl (HTTPException 503 "Template service unavailable: socket closed"),
     reliable (store true) ticking 0).
Proof.
  apply (list_templates_fails_with_override_query "clinic-7"
           {| coll := store true; net := [None; Some "socket closed"];
              clock := ticking; tick := 0 |} "socket closed" []).
  - discriminate.
  - reflexivity.
Defined.

Lemma get_template_fails_with_first_lookup_witness :
  get_template "A1" "clinic-7"
    {| coll := store true; net := [Some "socket closed"; None];
       clock := ticking; tick := 0 |}
  = (inl (HTTPException 503 "Template service unavailable: socket closed"),
     {| coll := store true; net := [None]; clock := ticking; tick := 0 |}).
Proof.
  apply (get_template_fails_with_first_lookup "A1" "clinic-7"
           {| coll := store true; net := [Some "socket closed"; None];
              clock := ticking; tick := 0 |} "socket closed" [None]).
  reflexivity.
Defined.

Lemma writes_keep_unique_keys_witness :
  uniquely_keyed
    (coll (snd (create_template soap_as_a9
                  {| coll := store true; net := [None; Some "socket closed"];
                     clock := ticking; tick := 0 |})))
  /\ uniquely_keyed
       (coll (snd (update_template "A1" soap_as_a9
                     {| coll := store true;
                        net := [None; Some "socket closed"];
                        clock := ticking; tick := 0 |}))).
Proof.
  apply (writes_keep_unique_keys soap_as_a9 "A1"
           {| coll := store true; net := [None; Some "socket closed"];
              clock := ticking; tick := 0 |}).
  split; [apply dup_keys_false; reflexivity | left; reflexivity].
Defined.

Lemma list_and_get_agree_witness :
  exists r,
    list_templates "clinic-7" (reliable (store true) ticking 0)
    = (inr r, reliable (store true) ticking 1)
    /\ forall t,
         In t (templates r)
         <-> fst (get_template (template_id t) "clinic-7"
                    (reliable (store true) ticking 7)) = inr t.
Proof.
  apply (list_and_get_agree "clinic-7" (store true) ticking 0 7).
  apply dup_keys_false; reflexivity.
Defined.





Lemma create_template_on_duplicated_keys_witness :
  create_template soap_as_a9
    (reliable {| docs := [ {| _id := 1%N; fields := soap |};
                           {| _id := 2%N; fields := handover_as_soap |} ];
                 unique_index := false |} ticking 0)
  = (inl (HTTPException 409 (conflict_detail soap_as_a9)),
     reliable {| docs := [ {| _id := 1%N; fields := soap |};
                           {| _id := 2%N; fields := handover_as_soap |} ];
                 unique_index := false |} ticking 0).
Proof.
  apply (create_template_on_duplicated_keys soap_as_a9
           {| docs := [ {| _id := 1%N; fields := soap |};
                        {| _id := 2%N; fields := handover_as_soap |} ];
              unique_index := false |} ticking 0).
  - reflexivity.
  - reflexivity.
Defined.

Lemma is_newer_transitive_witness :
  Releases._is_newer "1.10" "1.2" = true.
Proof.
  apply (is_newer_transitive "1.10" "1.9.3" "1.2" [1; 10] [1; 9; 3] [1; 2]);
    reflexivity.
Defined.

Lemma is_newer_trichotomy_witness :
  (Releases._is_newer "1.0" " 1.00" = false
   /\ Releases._is_newer " 1.00" "1.0" = false
   <-> [1; 0] = [1; 0])
  /\ (Releases._is_newer "1.0" " 1.00" = true ->
      Releases._is_newer " 1.00" "1.0" = false).
Proof.
  apply (is_newer_trichotomy "1.0" " 1.00" [1; 0] [1; 0]); reflexivity.
Defined.

Lemma update_announced_only_against_a_version_witness :
  exists v,
    Some "0.2.0" = Some v /\ v <> EmptyString
    /\ v <> "0.2.1"
    /\ Releases._is_newer "0.2.1" v = true.
Proof.
  apply (update_announced_only_against_a_version (Some "0.2.0")
           (Releases.reliable ReleaseSamples.catalog ReleaseSamples.ticking 0)
           {| Releases.available := true;
              Releases.latest_version := "0.2.1";
              Releases.latest_release_date := Some 100;
              Releases.latest_download_url := Some "https://example.org/0.2.1";
              Releases.latest_release_notes := Some "Initial release";
              Releases.latest_whats_new :=
                Some ["Templates sync from the server"] |}).
  - reflexivity.
  - reflexivity.
Defined.


Lemma create_release_duplicate_unmarks_all_witness :
  exists w1 resp,
    Releases.create_release ReleaseSamples.v021_again
      (Releases.reliable ReleaseSamples.catalog ReleaseSamples.ticking 0)
    = (inl (HTTPException 409 "Release 0.2.1 already exists"), w1)
    /\ (forall d, In d (Releases.docs (Releases.coll w1)) ->
          Releases.is_latest (Releases.fields d) = false)
    /\ map (fun d => Releases.version (Releases.fields d))
           (Releases.docs (Releases.coll w1))
       = ["0.2.1"]
    /\ fst (Releases.get_latest_release (Some "0.2.0") w1) = inr resp
    /\ Releases.available resp = false
    /\ Releases.latest_version resp = "0.2.0".
Proof.
  apply (create_release_duplicate_unmarks_all ReleaseSamples.v021_again
           ReleaseSamples.catalog ReleaseSamples.ticking 0 (Some "0.2.0"));
    reflexivity.
Defined.

Lemma create_release_unmarked_keeps_latest_witness :
  exists w1 d,
    Releases.create_release (ReleaseSamples.v030 false)
      (Releases.reliable ReleaseSamples.catalog ReleaseSamples.ticking 0)
    = (inr (ReleaseSamples.v030 false), w1)
    /\ Releases.docs (Releases.coll w1)
       = Releases.docs ReleaseSamples.catalog ++ [d]
    /\ fst (Releases.get_latest_release (Some "0.2.0") w1)
       = fst (Releases.get_latest_release (Some "0.2.0")
                (Releases.reliable ReleaseSamples.catalog
                   ReleaseSamples.ticking 3)).
Proof.
  apply (create_release_unmarked_keeps_latest (ReleaseSamples.v030 false)
           ReleaseSamples.catalog ReleaseSamples.ticking 0 3 (Some "0.2.0"));
    reflexivity.
Defined.

(* ================================================================== *)
(** * The seeding script *)

(** ** What a run keeps *)

Lemma kept_refl files d : kept files d d.
Proof. repeat split; auto. Qed.

Lemma kept_trans files d1 d2 d3 :
  kept files d1 d2 -> kept files d2 d3 -> kept files d1 d3.
Proof.
  intros [Hi [Hk [Hc Hs]]] [Hi' [Hk' [Hc' Hs']]].
  repeat split; try congruence.
  intros Hn. rewrite Hs'; [apply Hs; exact Hn|].
  rewrite Hk; exact Hn.
Qed.

Lemma Forall2_kept_refl files l : Forall2 (kept files) l l.
Proof. induction l; constructor; auto using kept_refl. Qed.

Lemma Forall2_kept_trans files l1 l2 l3 :
  Forall2 (kept files) l1 l2 -> Forall2 (kept files) l2 l3 ->
  Forall2 (kept files) l1 l3.
Proof.
  intros H; revert l3; induction H; intros l3 H3; inversion H3; subst;
    constructor; eauto using kept_trans.
Qed.

Lemma seeded_from_refl files c : seeded_from files c c.
Proof.
  exists (docs c), []; rewrite app_nil_r; auto using Forall2_kept_refl.
Qed.

Lemma seeded_from_step files c0 c c' :
  seeded_from files c0 c -> Forall2 (kept files) (docs c) (docs c') ->
  seeded_from files c0 c'.
Proof.
  intros [upd [added [Hd [Hu Ha]]]] H. rewrite Hd in H.
  apply Forall2_app_inv_l in H. destruct H as [upd' [added' [H1 [H2 E]]]].
  exists upd', added'; split; [exact E | split].
  - eapply Forall2_kept_trans; eauto.
  - clear - Ha H2. induction H2; inversion Ha; subst; constructor; auto.
    destruct H as [_ [-> _]]; assumption.
Qed.

Lemma seeded_from_snoc files c0 c c' x :
  seeded_from files c0 c -> docs c' = docs c ++ [x] ->
  seeds files (doc_key x) -> seeded_from files c0 c'.
Proof.
  intros [upd [added [Hd [Hu Ha]]]] H Hx.
  exists upd, (added ++ [x]); split; [|split; auto].
  - rewrite H, Hd, app_assoc; reflexivity.
  - apply Forall_app; auto.
Qed.

(** The collection an upsert leaves. *)
Lemma update_one_upsert_coll q set on_insert w :
  let c := coll w in
  let c' := coll (snd (SeedTemplates.update_one_upsert q set on_insert w)) in
  c' = c
  \/ (exists before d after,
        split_first q (docs c) = Some (before, d, after)
        /\ c' = {| docs := before
                     ++ {| _id := _id d;
                           fields := set (created_at (fields d)) |} :: after;
                   unique_index := unique_index c |})
  \/ (split_first q (docs c) = None
      /\ c' = {| docs := docs c
                   ++ [ {| _id := fresh_id (docs c);
                           fields := set on_insert |} ];
                 unique_index := unique_index c |}).
Proof.
  unfold SeedTemplates.update_one_upsert, get_coll, put_coll, set_coll, ret,
    raise, round_trip, bind.
  destruct w as [[ds ix] nt clk tk]; simpl.
  assert (Hgo : forall nt',
    let w' := {| coll := {| docs := ds; unique_index := ix |};
                 net := nt'; clock := clk; tick := tk |} in
    let c' :=
      coll (snd (match split_first q ds with
                 | Some (before, d, after) =>
                     if ix && has_key
                                (doc_key {| _id := _id d;
                                            fields := set (created_at (fields d)) |})
                                (before ++ after)
                     then (@inl exn (option ObjectId) DuplicateKeyError, w')
                     else (inr None,
                           {| coll := {| docs := before
                                           ++ {| _id := _id d;
                                                 fields := set (created_at (fields d)) |}
                                           :: after;
                                         unique_index := ix |};
                              net := nt'; clock := clk; tick := tk |})
                 | None =>
                     if ix && has_key (key (set on_insert)) ds
                     then (inl DuplicateKeyError, w')
                     else (inr (Some (fresh_id ds)),
                           {| coll := {| docs := ds
                                           ++ [ {| _id := fresh_id ds;
                                                   fields := set on_insert |} ];
                                         unique_index := ix |};
                              net := nt'; clock := clk; tick := tk |})
                 end)) in
    c' = {| docs := ds; unique_index := ix |}
    \/ (exists before d after,
          split_first q ds = Some (before, d, after)
          /\ c' = {| docs := before
                       ++ {| _id := _id d;
                             fields := set (created_at (fields d)) |} :: after;
                     unique_index := ix |})
    \/ (split_first q ds = None
        /\ c' = {| docs := ds ++ [ {| _id := fresh_id ds;
                                      fields := set on_insert |} ];
                   unique_index := ix |})).
  { intros nt'; simpl.
    destruct (split_first q ds) as [[[before d] after]|].
    - destruct (ix && has_key _ (before ++ after)); simpl; eauto 10.
    - destruct (ix && has_key _ ds); simpl; eauto 10. }
  destruct nt as [|[msg|] rest]; simpl.
  - specialize (Hgo []); simpl in Hgo.
    destruct (split_first q ds) as [[[before d] after]|];
      [destruct (ix && has_key _ (before ++ after))
      |destruct (ix && has_key _ ds)]; exact Hgo.
  - left; reflexivity.
  - specialize (Hgo rest); simpl in Hgo.
    destruct (split_first q ds) as [[[before d] after]|];
      [destruct (ix && has_key _ (before ++ after))
      |destruct (ix && has_key _ ds)]; exact Hgo.
Qed.

Lemma update_one_upsert_error q set on_insert w e :
  fst (SeedTemplates.update_one_upsert q set on_insert w) = inl e ->
  exists msg, e = PyMongoError msg.
Proof.
  unfold SeedTemplates.update_one_upsert, get_coll, put_coll, set_coll, ret,
    raise, round_trip, bind, DuplicateKeyError.
  destruct w as [[ds ix] nt clk tk]; simpl.
  destruct nt as [|[msg|] rest]; simpl;
    try (intros H; inversion H; eauto; fail);
    (destruct (split_first q ds) as [[[before d] after]|];
     [destruct (ix && has_key _ (before ++ after))
     |destruct (ix && has_key _ ds)]; simpl; intros H; inversion H; eauto).
Qed.

Lemma ctriple_upsert files c0 f now on_insert :
  In f files ->
  ctriple (seeded_from files c0)
    (SeedTemplates.update_one_upsert
       (update_query (SeedTemplates.stem f) default)
       (SeedTemplates.doc f now) on_insert)
    (fun r c => seeded_from files c0 c
                /\ forall e, r = inl e -> exists msg, e = PyMongoError msg).
Proof.
  intros Hf w Hw. split; [|intros e; apply update_one_upsert_error].
  destruct (update_one_upsert_coll
              (update_query (SeedTemplates.stem f) default)
              (SeedTemplates.doc f now) on_insert w)
    as [-> | [[before [d [after [E ->]]]] | [E ->]]]; auto.
  - destruct (split_first_Some _ _ _ _ _ E) as [Hds Hm].
    apply matches_update_query in Hm.
    eapply seeded_from_step; [exact Hw|]. simpl. rewrite Hds.
    apply Forall2_app; [apply Forall2_kept_refl|].
    constructor; [|apply Forall2_kept_refl].
    repeat split; simpl; auto.
    intros Hn; elim Hn. exists f; auto.
  - eapply seeded_from_snoc; [exact Hw | reflexivity |].
    exists f; split; auto.
Qed.

Lemma ctriple_upsert_each files c0 l :
  incl l files ->
  ctriple (seeded_from files c0) (SeedTemplates.upsert_each l)
    (fun r c => seeded_from files c0 c /\ driver_error r).
Proof.
  induction l as [|f l IH]; intros Hl; simpl.
  - apply ctriple_ret; intros c Hc; split; [exact Hc | discriminate].
  - assert (Hf : In f files) by (apply Hl; left; reflexivity).
    assert (Hl' : incl l files) by (intros x Hx; apply Hl; right; exact Hx).
    apply ctriple_bind with
      (R := fun r c => seeded_from files c0 c /\ exists now, r = inr now);
      [apply ctriple_utcnow | intros e c [_ [now H]]; discriminate |].
    intros now.
    apply ctriple_conseq with
      (I' := seeded_from files c0)
      (Q' := fun r c => seeded_from files c0 c /\ driver_error r);
      [| tauto | auto].
    apply ctriple_bind with
      (R := fun r c => seeded_from files c0 c /\ exists now, r = inr now);
      [apply ctriple_utcnow | intros e c [_ [x H]]; discriminate |].
    intros on_insert.
    apply ctriple_conseq with
      (I' := seeded_from files c0)
      (Q' := fun r c => seeded_from files c0 c /\ driver_error r);
      [| tauto | auto].
    apply ctriple_bind with
      (R := fun r c => seeded_from files c0 c /\ driver_error r).
    + apply (ctriple_upsert files c0 f now on_insert Hf).
    + intros e c [H1 H2]; split; [exact H1|].
      intros e' E; inversion E; subst; apply H2; reflexivity.
    + intros upserted_id.
      apply ctriple_conseq with
        (I' := seeded_from files c0)
        (Q' := fun r c => seeded_from files c0 c /\ driver_error r);
        [| tauto | auto].
      apply ctriple_bind with
        (R := fun r c => seeded_from files c0 c /\ driver_error r).
      * apply IH; exact Hl'.
      * intros e c [H1 H2]; split; [exact H1|].
        intros e' E; inversion E; subst; apply H2; reflexivity.
      * intros lines. apply ctriple_ret.
        intros c [Hc _]; split; [exact Hc | discriminate].
Qed.

Lemma ctriple_count_documents (I : Collection -> Prop) :
  ctriple I SeedTemplates.count_documents (fun r c => I c /\ driver_error r).
Proof.
  intros w Hw.
  unfold SeedTemplates.count_documents, get_coll, ret, round_trip, bind,
    driver_error.
  destruct w as [c nt clk tk]; simpl in *.
  destruct nt as [|[msg|] rest]; simpl; split; auto;
    intros e H; inversion H; eauto.
Qed.

(** The ping and the three index builds: they leave the documents as they
    are, fail only with a driver error, and leave the unique index in place
    when they all go through. *)
Lemma connect_and_index w :
  let r := (SeedTemplates.ping ;;;
            create_unique_index ;;;
            create_index "client_id" ;;;
            create_index "updated_at") w in
  docs (coll (snd r)) = docs (coll w)
  /\ driver_error (fst r)
  /\ (forall u, fst r = inr u -> unique_index (coll (snd r)) = true).
Proof.
  unfold SeedTemplates.ping, create_unique_index, create_index, get_coll,
    put_coll, set_coll, ret, raise, round_trip, bind, driver_error,
    DuplicateKeyError.
  destruct w as [[ds ix] nt clk tk]; simpl.
  destruct nt as [|[m1|] [|[m2|] [|[m3|] [|[m4|] rest]]]]; simpl;
    destruct ix; simpl; try destruct (dup_keys ds); simpl;
    (split; [reflexivity
            | split; [intros e H; inversion H; eauto
                     | intros u H; inversion H; reflexivity]]).
Qed.

Lemma seeded_from_same_docs files c0 c c' :
  seeded_from files c0 c -> docs c' = docs c -> seeded_from files c0 c'.
Proof.
  intros H E; eapply seeded_from_step; [exact H|].
  rewrite E; apply Forall2_kept_refl.
Qed.

Lemma seed_unfold template_files w :
  SeedTemplates.seed template_files w
  = match (SeedTemplates.ping ;;; create_unique_index ;;;
           create_index "client_id" ;;; create_index "updated_at") w with
    | (inl e, w1) => (inl (SeedTemplates.Exception e), w1)
    | (inr _, w1) =>
        match template_files with
        | [] => (inl (SeedTemplates.SystemExit 1), w1)
        | _ :: _ =>
            match (lines <- SeedTemplates.upsert_each template_files ;;
                   count <- SeedTemplates.count_documents ;;
                   ret {| SeedTemplates.lines := lines;
                          SeedTemplates.processed :=
                            List.length template_files;
                          SeedTemplates.count := count |}) w1 with
            | (inl e, w2) => (inl (SeedTemplates.Exception e), w2)
            | (inr s, w2) => (inr s, w2)
            end
        end
    end.
Proof.
  unfold SeedTemplates.seed, SeedTemplates.and_then, SeedTemplates.run,
    SeedTemplates.sys_exit.
  destruct ((SeedTemplates.ping ;;; create_unique_index ;;;
             create_index "client_id" ;;; create_index "updated_at") w)
    as [[e|u] w1]; destruct template_files; reflexivity.
Qed.

(** The loop and the count, from any collection seeded from [c0]. *)
Lemma upsert_and_count files c0 w :
  seeded_from files c0 (coll w) ->
  let r := (lines <- SeedTemplates.upsert_each files ;;
            count <- SeedTemplates.count_documents ;;
            ret {| SeedTemplates.lines := lines;
                   SeedTemplates.processed := List.length files;
                   SeedTemplates.count := count |}) w in
  seeded_from files c0 (coll (snd r))
  /\ driver_error (fst r)
  /\ forall s, fst r = inr s ->
       SeedTemplates.processed s = List.length files
       /\ SeedTemplates.count s = List.length (docs (coll (snd r))).
Proof.
  intros Hw.
  pose proof (ctriple_upsert_each files c0 files (incl_refl _) w Hw)
    as [H1 H2].
  unfold bind at 1.
  destruct (SeedTemplates.upsert_each files w) as [[e|lines] w1];
    simpl in *.
  - split; [exact H1 | split; [|discriminate]].
    intros e' E; inversion E; subst; apply H2; reflexivity.
  - unfold SeedTemplates.count_documents, get_coll, ret, round_trip, bind,
      driver_error.
    destruct w1 as [c nt clk tk]; simpl in *.
    destruct nt as [|[msg|] rest]; simpl;
      (split; [exact H1
              | split; [intros e H; inversion H; eauto
                       | intros s H; inversion H; subst; simpl; auto]]).
Qed.

(** X23. Whatever the network does, and wherever the run stops, the seeding
    script never removes or reorders a stored document and never changes
    the [_id], the key or the [created_at] of one; the only stored documents
    it rewrites are the defaults it has a file for, so no client's override
    and no default of another template id is touched; and whatever it adds
    it adds at the end, under the default key of one of the files. *)
Theorem seed_keeps_other_documents template_files w :
  seeded_from template_files (coll w)
    (coll (snd (SeedTemplates.seed template_files w))).
Proof.
  rewrite seed_unfold.
  destruct (connect_and_index w) as [Hd _].
  destruct ((SeedTemplates.ping ;;; create_unique_index ;;;
             create_index "client_id" ;;; create_index "updated_at") w)
    as [[e|u] w1]; simpl in *.
  - eapply seeded_from_same_docs; [apply seeded_from_refl | exact Hd].
  - assert (H1 : seeded_from template_files (coll w) (coll w1))
      by (eapply seeded_from_same_docs; [apply seeded_from_refl | exact Hd]).
    destruct template_files as [|f fs]; [exact H1|].
    destruct (upsert_and_count (f :: fs) (coll w) w1 H1) as [H2 _].
    destruct ((lines <- SeedTemplates.upsert_each (f :: fs) ;;
               count <- SeedTemplates.count_documents ;;
               ret {| SeedTemplates.lines := lines;
                      SeedTemplates.processed := List.length (f :: fs);
                      SeedTemplates.count := count |}) w1)
      as [[e|s] w2]; simpl in *; exact H2.
Qed.



(** ** A run on a reliable server *)

Lemma doc_key_seed_doc f now created d :
  fields d = SeedTemplates.doc f now created ->
  doc_key d = (SeedTemplates.stem f, default).
Proof. unfold doc_key, key; intros ->; reflexivity. Qed.

Lemma upsert_reliable f now on_insert ds clk n :
  NoDup (map doc_key ds) ->
  SeedTemplates.update_one_upsert
    (update_query (SeedTemplates.stem f) default)
    (SeedTemplates.doc f now) on_insert (reliable (indexed ds) clk n)
  = (inr (if has_key (SeedTemplates.stem f, default) ds
          then None else Some (fresh_id ds)),
     reliable (indexed (upsert_docs f now on_insert ds)) clk n).
Proof.
  intros Hnd.
  unfold SeedTemplates.update_one_upsert, upsert_docs, get_coll, put_coll,
    set_coll, ret, raise, round_trip, reliable, indexed, bind; simpl.
  destruct (split_first (update_query (SeedTemplates.stem f) default) ds)
    as [[[before d] after]|] eqn:E.
  - destruct (split_first_Some _ _ _ _ _ E) as [Hds Hm].
    apply matches_update_query in Hm.
    assert (Hk : has_key (SeedTemplates.stem f, default) (before ++ after)
                 = false).
    { apply has_key_false. intros x Hx Hkx.
      assert (x = d).
      { apply (key_names_one ds); auto; [| |congruence].
        - rewrite Hds. apply in_app_or in Hx. apply in_or_app.
          destruct Hx; [left | right; right]; assumption.
        - rewrite Hds; apply in_or_app; right; left; reflexivity. }
      subst x. rewrite Hds, map_app in Hnd; simpl in Hnd.
      apply NoDup_remove_2 in Hnd. apply Hnd.
      rewrite <- map_app. apply in_map; exact Hx. }
    assert (Hh : has_key (SeedTemplates.stem f, default) ds = true).
    { apply has_key_In; exists d; split; auto.
      rewrite Hds; apply in_or_app; right; left; reflexivity. }
    change (doc_key {| _id := _id d;
                       fields := SeedTemplates.doc f now
                                   (created_at (fields d)) |})
      with (SeedTemplates.stem f, default).
    rewrite Hk, Hh; reflexivity.
  - assert (Hh : has_key (SeedTemplates.stem f, default) ds = false).
    { apply has_key_false. intros x Hx Hkx.
      apply matches_update_query in Hkx.
      rewrite (proj1 (split_first_None _ _) E x Hx) in Hkx; discriminate. }
    change (key (SeedTemplates.doc f now on_insert))
      with (SeedTemplates.stem f, default).
    rewrite Hh; reflexivity.
Qed.

Lemma upsert_docs_NoDup f now on_insert ds :
  NoDup (map doc_key ds) -> NoDup (map doc_key (upsert_docs f now on_insert ds)).
Proof.
  intros Hnd. unfold upsert_docs.
  destruct (split_first (update_query (SeedTemplates.stem f) default) ds)
    as [[[before d] after]|] eqn:E.
  - destruct (split_first_Some _ _ _ _ _ E) as [Hds Hm].
    apply matches_update_query in Hm.
    rewrite Hds in Hnd. rewrite map_app in *; simpl in *.
    unfold doc_key at 2; simpl. unfold key; simpl.
    change (SeedTemplates.stem f, "default")
      with (SeedTemplates.stem f, default).
    rewrite <- Hm; exact Hnd.
  - apply NoDup_keys_snoc; auto.
    apply has_key_false. intros x Hx Hkx.
    change (doc_key x = (SeedTemplates.stem f, default)) in Hkx.
    apply matches_update_query in Hkx.
    rewrite (proj1 (split_first_None _ _) E x Hx) in Hkx; discriminate.
Qed.

(** The upsert leaves a document holding the file. *)
Lemma upsert_docs_holds f now on_insert ds :
  exists d, In d (upsert_docs f now on_insert ds)
            /\ holds_file f (fields d).
Proof.
  unfold upsert_docs, holds_file.
  destruct (split_first (update_query (SeedTemplates.stem f) default) ds)
    as [[[before d] after]|].
  - eexists; split; [apply in_or_app; right; left; reflexivity|].
    simpl; eauto.
  - eexists; split; [apply in_or_app; right; left; reflexivity|].
    simpl; eauto.
Qed.

(** The documents under other keys are those there were. *)
Lemma upsert_docs_others f now on_insert ds d :
  doc_key d <> (SeedTemplates.stem f, default) ->
  (In d (upsert_docs f now on_insert ds) <-> In d ds).
Proof.
  intros Hk. unfold upsert_docs.
  destruct (split_first (update_query (SeedTemplates.stem f) default) ds)
    as [[[before d0] after]|] eqn:E.
  - destruct (split_first_Some _ _ _ _ _ E) as [Hds Hm].
    apply matches_update_query in Hm. rewrite Hds.
    rewrite !in_app_iff; simpl. split.
    + intros [H | [H | H]]; auto.
      subst d; elim Hk; reflexivity.
    + intros [H | [H | H]]; auto.
      subst d; elim Hk; exact Hm.
  - rewrite in_app_iff; simpl. split; auto.
    intros [H | [H | []]]; auto.
    subst d; elim Hk; reflexivity.
Qed.

Lemma seed_docs_NoDup files clk :
  forall n ds, NoDup (map doc_key ds) ->
               NoDup (map doc_key (seed_docs files clk n ds)).
Proof.
  induction files as [|f files IH]; simpl; auto.
  intros n ds H; apply IH, upsert_docs_NoDup, H.
Qed.

Lemma seed_docs_others files clk d :
  ~ seeds files (doc_key d) ->
  forall n ds, In d (seed_docs files clk n ds) <-> In d ds.
Proof.
  induction files as [|f files IH]; simpl; intros Hn n ds; [tauto|].
  rewrite IH.
  - apply upsert_docs_others. intros E; apply Hn; exists f; simpl; auto.
  - intros [f' [Hf' E]]; apply Hn; exists f'; simpl; auto.
Qed.

Lemma seed_docs_holds files clk :
  NoDup (map SeedTemplates.stem files) ->
  forall n ds f, In f files ->
    exists d, In d (seed_docs files clk n ds) /\ holds_file f (fields d).
Proof.
  induction files as [|f0 files IH]; simpl; intros Hnd n ds f Hf;
    [contradiction|].
  apply NoDup_cons_iff in Hnd; destruct Hnd as [Hnew Hnd].
  destruct Hf as [<- | Hf].
  - destruct (upsert_docs_holds f0 (clk n) (clk (S n)) ds) as [d [Hin Hh]].
    exists d; split; auto.
    apply seed_docs_others; auto.
    intros [f' [Hf' E]]. destruct Hh as [now [created Hh]].
    rewrite (doc_key_seed_doc _ _ _ _ Hh) in E. inversion E as [E'].
    apply Hnew. rewrite E'. apply in_map; exact Hf'.
  - apply IH; auto.
Qed.

Lemma upsert_each_reliable files clk :
  forall n ds,
    NoDup (map doc_key ds) ->
    SeedTemplates.upsert_each files (reliable (indexed ds) clk n)
    = (inr (seed_lines files clk n ds),
       reliable (indexed (seed_docs files clk n ds)) clk
         (n + 2 * List.length files)).
Proof.
  induction files as [|f files IH]; intros n ds Hnd; simpl.
  - unfold ret. rewrite Nat.add_0_r; reflexivity.
  - unfold bind at 1. unfold utcnow at 1, reliable at 1; simpl.
    unfold bind at 1. unfold utcnow at 1; simpl.
    unfold bind at 1.
    change {| coll := indexed ds; net := []; clock := clk; tick := S (S n) |}
      with (reliable (indexed ds) clk (S (S n))).
    change {| q_template_id := Some (SeedTemplates.stem f);
              q_client_id := Some "default"; q_is_active := None |}
      with (update_query (SeedTemplates.stem f) default).
    rewrite upsert_reliable by exact Hnd.
    unfold bind at 1.
    rewrite IH by (apply upsert_docs_NoDup; exact Hnd).
    unfold ret.
    replace (S (S n) + 2 * List.length files)%nat
      with (n + S (List.length files + S (List.length files + 0)))%nat by lia.
    destruct (has_key (SeedTemplates.stem f, default) ds); reflexivity.
Qed.

Lemma upsert_and_count_reliable files clk n ds :
  NoDup (map doc_key ds) ->
  (lines <- SeedTemplates.upsert_each files ;;
   count <- SeedTemplates.count_documents ;;
   ret {| SeedTemplates.lines := lines;
          SeedTemplates.processed := List.length files;
          SeedTemplates.count := count |}) (reliable (indexed ds) clk n)
  = (inr {| SeedTemplates.lines := seed_lines files clk n ds;
            SeedTemplates.processed := List.length files;
            SeedTemplates.count := List.length (seed_docs files clk n ds) |},
     reliable (indexed (seed_docs files clk n ds)) clk
       (n + 2 * List.length files)).
Proof.
  intros Hnd. unfold bind at 1. rewrite upsert_each_reliable by exact Hnd.
  reflexivity.
Qed.

Lemma seed_reliable files c clk n :
  NoDup (map doc_key (docs c)) -> files <> [] ->
  SeedTemplates.seed files (reliable c clk n)
  = (inr {| SeedTemplates.lines := seed_lines files clk n (docs c);
            SeedTemplates.processed := List.length files;
            SeedTemplates.count :=
              List.length (seed_docs files clk n (docs c)) |},
     reliable (indexed (seed_docs files clk n (docs c))) clk
       (n + 2 * List.length files)).
Proof.
  intros Hnd Hne. rewrite seed_unfold.
  assert (E : (SeedTemplates.ping ;;; create_unique_index ;;;
               create_index "client_id" ;;; create_index "updated_at")
                (reliable c clk n)
              = (inr tt, reliable (indexed (docs c)) clk n)).
  { unfold SeedTemplates.ping, create_unique_index, create_index, get_coll,
      put_coll, set_coll, ret, raise, round_trip, reliable, indexed, bind.
    destruct c as [ds ix]; simpl in *.
    destruct ix; simpl; [reflexivity|].
    rewrite (proj2 (dup_keys_false ds) Hnd); reflexivity. }
  rewrite E. destruct files as [|f fs]; [elim Hne; reflexivity|].
  rewrite upsert_and_count_reliable by exact Hnd.
  reflexivity.
Qed.

Lemma Forall2_In_left {A B} (R : A -> B -> Prop) l1 l2 x :
  Forall2 R l1 l2 -> In x l1 -> exists y, In y l2 /\ R x y.
Proof.
  induction 1 as [|a b l1 l2 Hab H IH]; simpl; [tauto|].
  intros [<- | Hx]; [eauto|].
  destruct (IH Hx) as [y [Hy Hr]]; eauto.
Qed.

(** After a run on a reliable server the resolution handler answers, for
    every file, with the record of that file: to the default client, and to
    every client that has no active override stored for the template. *)
Lemma seed_then_get_reliable files c clk n f cid :
  NoDup (map doc_key (docs c)) ->
  NoDup (map SeedTemplates.stem files) ->
  In f files ->
  (forall d, In d (docs c) -> doc_key d = (SeedTemplates.stem f, cid) ->
     cid = default \/ is_active (fields d) = false) ->
  exists d,
    In d (seed_docs files clk n (docs c))
    /\ holds_file f (fields d)
    /\ forall m,
         get_template (SeedTemplates.stem f) cid
           (reliable (indexed (seed_docs files clk n (docs c))) clk m)
         = (inr (fields d),
            reliable (indexed (seed_docs files clk n (docs c))) clk m).
Proof.
  intros Hnd Hst Hf Hov.
  destruct (seed_docs_holds files clk Hst n (docs c) f Hf) as [d [Hin Hh]].
  exists d; split; [exact Hin | split; [exact Hh|]]. intros m.
  pose proof (seed_docs_NoDup files clk n (docs c) Hnd) as Hnd'.
  rewrite get_template_reliable. simpl docs.
  assert (Hover :
    (if negb (String.eqb cid default)
     then List.find (matches (active_query (SeedTemplates.stem f) cid))
            (seed_docs files clk n (docs c))
     else None) = None).
  { destruct (String.eqb_spec cid default) as [-> | Hne]; simpl; auto.
    apply find_active_None. intros x Hx Ht Hc.
    assert (Hxc : In x (docs c)).
    { apply (seed_docs_others files clk x) in Hx; auto.
      intros [f' [_ E]]. unfold doc_key, key in E.
      inversion E; congruence. }
    destruct (Hov x Hxc) as [E | E]; auto.
    - unfold doc_key, key; congruence.
    - contradiction. }
  rewrite Hover.
  destruct Hh as [now [created Hh]].
  assert (Hfind :
    List.find (matches (active_query (SeedTemplates.stem f) default))
      (seed_docs files clk n (docs c)) = Some d).
  { apply find_active_Some; auto. split; [exact Hin | split].
    - eapply doc_key_seed_doc; eauto.
    - rewrite Hh; reflexivity. }
  rewrite Hfind; reflexivity.
Qed.

Lemma kept_created_at files ds upd added d d' :
  Forall2 (kept files) ds upd ->
  NoDup (map doc_key (upd ++ added)) ->
  In d ds -> In d' (upd ++ added) -> doc_key d' = doc_key d ->
  created_at (fields d') = created_at (fields d).
Proof.
  intros H2 Hnd Hd Hd' Hk.
  destruct (Forall2_In_left _ _ _ _ H2 Hd) as [y [Hy [_ [Hyk [Hyc _]]]]].
  assert (d' = y).
  { apply (key_names_one (upd ++ added)); auto; [|congruence].
    apply in_or_app; left; exact Hy. }
  subst y; exact Hyc.
Qed.

(** X25. After a run on a reliable server over files of distinct stems, the
    resolution handler answers, for each file, with the record of that
    file (its name, description, sections and rules, version 1, active,
    client "default"): to the default client, and to every client that has
    no active override stored for the template.  The record keeps the
    [created_at] of the default that was stored before the run, if there
    was one, whatever that default held and whether or not it was active. *)
Theorem seed_then_get template_files c clk n f cid :
  NoDup (map doc_key (docs c)) ->
  NoDup (map SeedTemplates.stem template_files) ->
  In f template_files ->
  (forall d, In d (docs c) -> doc_key d = (SeedTemplates.stem f, cid) ->
     cid = default \/ is_active (fields d) = false) ->
  exists s w1 t,
    SeedTemplates.seed template_files (reliable c clk n) = (inr s, w1)
    /\ get_template (SeedTemplates.stem f) cid w1 = (inr t, w1)
    /\ holds_file f t
    /\ forall d, In d (docs c) ->
         doc_key d = (SeedTemplates.stem f, default) ->
         created_at t = created_at (fields d).
Proof.
  intros Hnd Hst Hf Hov.
  assert (Hne : template_files <> [])
    by (destruct template_files; [destruct Hf | discriminate]).
  destruct (seed_then_get_reliable template_files c clk n f cid Hnd Hst Hf Hov)
    as [d [Hin [Hh Hget]]].
  assert (H0 : seeded_from template_files c (indexed (docs c)))
    by (eapply seeded_from_same_docs; [apply seeded_from_refl | reflexivity]).
  destruct (upsert_and_count template_files c
              (reliable (indexed (docs c)) clk n) H0) as [Hfr _].
  rewrite (upsert_and_count_reliable template_files clk n (docs c) Hnd)
    in Hfr.
  rewrite (seed_reliable template_files c clk n Hnd Hne).
  destruct Hfr as [upd [added [Hd [Hk _]]]]. simpl in Hd.
  eexists; eexists; exists (fields d).
  split; [reflexivity | split; [apply Hget | split; [exact Hh|]]].
  intros d0 Hd0 Hk0.
  pose proof (seed_docs_NoDup template_files clk n (docs c) Hnd) as Hnd'.
  rewrite Hd in Hnd', Hin.
  apply (kept_created_at template_files (docs c) upd added); auto.
  destruct Hh as [now [created Hh]].
  rewrite (doc_key_seed_doc _ _ _ _ Hh); auto.
Qed.

(** ** A second run *)

Lemma same_but_updated_at_refl d : same_but_updated_at d d.
Proof. split; reflexivity. Qed.

Lemma same_but_updated_at_trans d1 d2 d3 :
  same_but_updated_at d1 d2 -> same_but_updated_at d2 d3 ->
  same_but_updated_at d1 d3.
Proof. intros [H1 H2] [H3 H4]; split; congruence. Qed.

Lemma Forall2_same_refl l : Forall2 same_but_updated_at l l.
Proof. induction l; constructor; auto using same_but_updated_at_refl. Qed.

Lemma Forall2_same_trans l1 l2 l3 :
  Forall2 same_but_updated_at l1 l2 -> Forall2 same_but_updated_at l2 l3 ->
  Forall2 same_but_updated_at l1 l3.
Proof.
  intros H; revert l3; induction H; intros l3 H3; inversion H3; subst;
    constructor; eauto using same_but_updated_at_trans.
Qed.

Lemma holds_file_same f d d' :
  same_but_updated_at d d' -> holds_file f (fields d) ->
  holds_file f (fields d').
Proof.
  intros [_ E] [now [created H]]. rewrite H in E.
  exists (updated_at (fields d')), created.
  destruct (fields d'); unfold set_updated_at in E; simpl in *.
  inversion E; subst; reflexivity.
Qed.

Lemma upsert_docs_again f now on_insert ds d :
  NoDup (map doc_key ds) -> In d ds -> holds_file f (fields d) ->
  Forall2 same_but_updated_at ds (upsert_docs f now on_insert ds)
  /\ has_key (SeedTemplates.stem f, default) ds = true.
Proof.
  intros Hnd Hin [now0 [created Hh]].
  pose proof (doc_key_seed_doc _ _ _ _ Hh) as Hk.
  destruct (split_first_key _ _ _ _ Hnd Hin Hk)
    as [before [after [E [Hds _]]]].
  split; [|apply has_key_In; eauto].
  unfold upsert_docs; rewrite E. rewrite Hds at 1.
  apply Forall2_app; [apply Forall2_same_refl|].
  constructor; [|apply Forall2_same_refl].
  split; simpl; [reflexivity|]. rewrite Hh; reflexivity.
Qed.

Lemma seed_docs_again files clk :
  forall m ds,
    NoDup (map doc_key ds) ->
    (forall f, In f files ->
       exists d, In d ds /\ holds_file f (fields d)) ->
    Forall2 same_but_updated_at ds (seed_docs files clk m ds)
    /\ Forall (fun l => fst (fst l) = SeedTemplates.updated)
         (seed_lines files clk m ds).
Proof.
  induction files as [|f files IH]; simpl; intros m ds Hnd Hall.
  - split; [apply Forall2_same_refl | constructor].
  - destruct (Hall f (or_introl eq_refl)) as [d [Hin Hh]].
    destruct (upsert_docs_again f (clk m) (clk (S m)) ds d Hnd Hin Hh)
      as [H2 Hk].
    destruct (IH (S (S m)) (upsert_docs f (clk m) (clk (S m)) ds)) as [H3 H4].
    + apply upsert_docs_NoDup; exact Hnd.
    + intros f' Hf'.
      destruct (Hall f' (or_intror Hf')) as [d1 [Hin1 Hh1]].
      destruct (Forall2_In_left _ _ _ _ H2 Hin1) as [d1' [Hin1' Hs]].
      exists d1'; split; [exact Hin1'|].
      eapply holds_file_same; eauto.
    + split; [eapply Forall2_same_trans; eauto|].
      constructor; [rewrite Hk; reflexivity | exact H4].
Qed.

(** X26. A second run right after a completed one, on a reliable server: it
    completes, reports every file as updated and the same count, and
    leaves every document as the first run left it but for [updated_at]. *)
Theorem seed_twice template_files c clk n :
  NoDup (map doc_key (docs c)) ->
  NoDup (map SeedTemplates.stem template_files) ->
  template_files <> [] ->
  exists s1 w1 s2 w2,
    SeedTemplates.seed template_files (reliable c clk n) = (inr s1, w1)
    /\ SeedTemplates.seed template_files w1 = (inr s2, w2)
    /\ Forall (fun l => fst (fst l) = SeedTemplates.updated)
         (SeedTemplates.lines s2)
    /\ SeedTemplates.count s2 = SeedTemplates.count s1
    /\ Forall2 same_but_updated_at (docs (coll w1)) (docs (coll w2)).
Proof.
  intros Hnd Hst Hne.
  pose proof (seed_docs_NoDup template_files clk n (docs c) Hnd) as Hnd1.
  destruct (seed_docs_again template_files clk
              (n + 2 * List.length template_files)
              (seed_docs template_files clk n (docs c)) Hnd1
              (seed_docs_holds template_files clk Hst n (docs c)))
    as [H2 Hl].
  do 4 eexists.
  split; [apply seed_reliable; assumption|].
  split; [apply seed_reliable; [exact Hnd1 | exact Hne]|].
  simpl. split; [exact Hl | split; [|exact H2]].
  symmetry; eapply Forall2_length; exact H2.
Qed.

(* ================================================================== *)
(** * Instances of the seeding statements *)

Module SeedScenarios.
Import Samples SeedSamples.

(** The stored default of A1 is rewritten and keeps its place, its [_id]
    and its [created_at]; R4 is new and goes last. *)
Example seeding_the_clinic :
  exists s w1,
    SeedTemplates.seed files (reliable (store true) ticking 0) = (inr s, w1)
    /\ SeedTemplates.lines s
       = [ (SeedTemplates.updated, "A1", "SOAP note (2024)");
           (SeedTemplates.inserted, "R4", "Referral") ]
    /\ SeedTemplates.processed s = 2%nat
    /\ SeedTemplates.count s = S (List.length (docs (store true)))
    /\ hd_error (docs (coll w1))
       = Some {| _id := 1%N;
                 fields := SeedTemplates.doc soap_file (ticking 0)
                             (created_at soap) |}
    /\ tl (docs (coll w1))
       = tl (docs (store true))
         ++ [ {| _id := fresh_id (docs (store true));
                 fields := SeedTemplates.doc referral_file (ticking 2)
                             (ticking 3) |} ].
Proof. do 2 eexists; repeat split; reflexivity. Qed.

Example seeding_without_files :
  fst (SeedTemplates.seed [] (reliable (store true) ticking 0))
  = inl (SeedTemplates.SystemExit 1).
Proof. reflexivity. Qed.

Example seeding_without_a_server :
  fst (SeedTemplates.seed files
         {| coll := store true; net := [Some "connection refused"];
            clock := ticking; tick := 0 |})
  = inl (SeedTemplates.Exception (PyMongoError "connection refused")).
Proof. reflexivity. Qed.

End SeedScenarios.

Lemma seed_then_get_witness :
  exists s w1 t,
    SeedTemplates.seed SeedSamples.files
      (reliable (Samples.store true) Samples.ticking 0) = (inr s, w1)
    /\ get_template "A1" "clinic-9" w1 = (inr t, w1)
    /\ holds_file SeedSamples.soap_file t
    /\ forall d, In d (docs (Samples.store true)) ->
         doc_key d = ("A1", default) ->
         created_at t = created_at (fields d).
Proof.
  apply (seed_then_get SeedSamples.files (Samples.store true)
           Samples.ticking 0 SeedSamples.soap_file "clinic-9").
  - apply dup_keys_false; reflexivity.
  - repeat constructor; simpl; intuition discriminate.
  - left; reflexivity.
  - intros d Hd Hk; right; simpl in Hd.
    repeat (destruct Hd as [<- | Hd]; [discriminate Hk|]).
    contradiction.
Defined.

Lemma seed_twice_witness :
  exists s1 w1 s2 w2,
    SeedTemplates.seed SeedSamples.files
      (reliable (Samples.store true) Samples.ticking 0) = (inr s1, w1)
    /\ SeedTemplates.seed SeedSamples.files w1 = (inr s2, w2)
    /\ Forall (fun l => fst (fst l) = SeedTemplates.updated)
         (SeedTemplates.lines s2)
    /\ SeedTemplates.count s2 = SeedTemplates.count s1
    /\ Forall2 same_but_updated_at (docs (coll w1)) (docs (coll w2)).
Proof.
  apply (seed_twice SeedSamples.files (Samples.store true) Samples.ticking 0).
  - apply dup_keys_false; reflexivity.
  - repeat constructor; simpl; intuition discriminate.
  - discriminate.
Defined.

(* ================================================================== *)
(** * The release seeding script *)













